(** * FastTurtle: the differential-drive robot and its lidar (src/robot.cpp)

    A shallow embedding of [TurtlebotBurger] and [Lidar].

    Numbers.  Two readings of the C++ [float] are used.  What a method
    writes, what it reaches through a pointer, what it prints and what its
    comparisons accept are stated on a model where a number is a real
    ([R]): none of these statements rests on an identity of arithmetic.
    What [kinematics] computes is stated in [Module Machine], on IEEE 754
    binary32 and binary64 numbers with their rounding, infinities and NaN.

    Objects.  A [TurtlebotBurger] owns a [Lidar*], and a [Lidar] owns a
    [Point2d*]; both are addresses into a heap of objects, so that what a
    method writes and what it only reaches through a pointer stay apart.

    Output.  Every [std::cout <<] statement appends one [Event] to the
    output stream of the state.

    Headers.  robot.h, geometry.h, obstacles.h and utils.h are not part of
    the sources at hand.  What robot.cpp takes from them (constants, helper
    functions, the obstacle's intersection routine) is gathered in the
    class [Externals]; the robot and the lidar are stated over any
    instance of it. *)

From Stdlib Require Import Reals Lra ZArith String.
From Stdlib Require Import Floats.SpecFloat.
From stdpp Require Import gmap.

Open Scope R_scope.

(** ** Comparisons as the code uses them *)

(** [a <= b] as a C++ expression of type [bool]. *)
Definition Rle_bool (a b : R) : bool := if Rle_dec a b then true else false.

(** A [bool] used where a [float] is expected: [false] is 0, [true] is 1. *)
Definition bool_to_float (b : bool) : R := if b then 1 else 0.

(** ** Geometry (geometry.h, obstacles.h) *)

Record Point2d := { px : R; py : R }.

(** [Line(x1, y1, x2, y2)]. *)
Record Line := { lx1 : R; ly1 : R; lx2 : R; ly2 : R }.

Definition set_points (_ : Line) (x1 y1 x2 y2 : R) : Line :=
  {| lx1 := x1; ly1 := y1; lx2 := x2; ly2 := y2 |}.

(** Modelled from the spec: obstacles.h is missing; a round obstacle is a
    circle, with the centre read by [get_xc] and [get_yc]. *)
Record RoundObstacle := { get_xc : R; get_yc : R; get_radius : R }.

(** The [std::tuple<bool, float, float, float, float>] returned by
    [intersects_line]: component 0 tells whether the line meets the circle,
    components 1 to 4 are the coordinates of the two meeting points. *)
Record Intersection :=
  { get0 : bool; get1 : R; get2 : R; get3 : R; get4 : R }.

(** ** What robot.cpp takes from the missing headers *)

Class Externals := {
  normalize_angle : R -> R;
  distance_between_points : R -> R -> R -> R -> R;
  intersects_line : RoundObstacle -> Line -> Intersection;
  TO_RAD : R;
  N_LASERS : nat;
  MIN_DISTANCE : R;
  MAX_DISTANCE : R
}.

(** ** Objects *)

Record Lidar := {
  frequency : R;
  position : positive;          (* Point2d* *)
  lasers : list R;
  min_distance : R;
  max_distance : R
}.

(** The fields [xc], [yc] and [radius] are those of the base class
    [Circle]. *)
Record TurtlebotBurger := {
  xc : R;
  yc : R;
  radius : R;
  dt : R;
  theta : R;
  inv_diameter : R;
  diameter : R;
  name : string;
  model : string;
  lidar : positive              (* Lidar* *)
}.

Record Heap := {
  lidar_objs : gmap positive Lidar;
  point_objs : gmap positive Point2d
}.

(** ** Output stream *)

Inductive Event :=
| LaserBefore (l : Line)
| RayHeader (ray : Z)
| LaserShown (l : Line)
| ObstacleShown (o : nat) (ob : RoundObstacle)
| IntersectionShown (o : nat) (i : Intersection)
| Separator.

(** The state a method of [TurtlebotBurger] runs in. *)
Record State := {
  this : TurtlebotBurger;
  heap : Heap;
  cout : list Event
}.

(** ** Loops *)

(** [for (int i = lo; i < hi; i++) body(i)] *)
Fixpoint for_loop {S : Type} (fuel : nat) (i hi : Z) (body : Z -> S -> S) (s : S) : S :=
  match fuel with
  | O => s
  | Datatypes.S fuel' =>
      if (i <? hi)%Z then for_loop fuel' (i + 1)%Z hi body (body i s) else s
  end.

Definition for_range {S : Type} (lo hi : Z) (body : Z -> S -> S) (s : S) : S :=
  for_loop (Z.to_nat (hi - lo)) lo hi body s.

(** [for (int o = start; o < v.size(); o++) body(o, v[o])], on the part of
    [v] from [start] on. *)
Fixpoint for_each_indexed {A S : Type} (o : nat) (v : list A)
    (body : nat -> A -> S -> S) (s : S) : S :=
  match v with
  | [] => s
  | a :: v' => for_each_indexed (Datatypes.S o) v' body (body o a s)
  end.

Section Robot.
Context `{Externals}.

(** ** Lidar *)

(** [Lidar::Lidar(float frequency, Point2d* position)] *)
Definition Lidar_new (frequency0 : R) (position0 : positive) : Lidar :=
  {| frequency := frequency0;
     position := position0;
     lasers := replicate N_LASERS MAX_DISTANCE;
     min_distance := MIN_DISTANCE;
     max_distance := MAX_DISTANCE |}.

Definition get_lasers (l : Lidar) : list R := lasers l.

(** [return (xi <= xm <= xf) || (xf <= xm <= xi);]
    C++ reads [xi <= xm <= xf] as [(xi <= xm) <= xf]: the first comparison
    gives a [bool], which is converted to 0 or 1 and compared with [xf]. *)
Definition in_between (xi xm xf : R) : bool :=
  Rle_bool (bool_to_float (Rle_bool xi xm)) xf
  || Rle_bool (bool_to_float (Rle_bool xf xm)) xi.

(** [Lidar::obstacle_in_sight] *)
Definition obstacle_in_sight (x_min y_min x_max y_max x_obs y_obs : R) : bool :=
  in_between x_min x_obs x_max && in_between y_min y_obs y_max.

(** [Lidar::get_laser_points(float angle, float x, float y, float theta)] *)
Definition get_laser_points (l : Lidar) (angle x0 y0 theta0 : R) : R * R * R * R :=
  let angle_rad := angle * TO_RAD in
  let cos_ := cos (angle_rad + theta0) in
  let sin_ := sin (angle_rad + theta0) in
  (x0 + min_distance l * cos_,
   y0 + min_distance l * sin_,
   x0 + max_distance l * cos_,
   y0 + max_distance l * sin_).

(** ** TurtlebotBurger *)

Definition alloc {A : Type} (m : gmap positive A) : positive := fresh (dom m).

(** [TurtlebotBurger::TurtlebotBurger(x, y, theta, radius, dt, name)].
    [float frequency;] is handed to the lidar without having been given a
    value; [frequency0] stands for whatever it holds. *)
Definition TurtlebotBurger_new (x0 y0 theta0 radius0 dt0 : R) (name0 : string)
    (frequency0 : R) (h : Heap) (out : list Event) : State :=
  let p := alloc (point_objs h) in
  let points' := <[p := {| px := x0; py := y0 |}]> (point_objs h) in
  let q := alloc (lidar_objs h) in
  let lidars' := <[q := Lidar_new frequency0 p]> (lidar_objs h) in
  {| this := {| xc := x0; yc := y0; radius := radius0;
                dt := dt0;
                theta := theta0;
                inv_diameter := 1.0 / (2 * radius0);
                diameter := radius0 * 2.0;
                name := name0;
                model := "burger";
                lidar := q |};
     heap := {| lidar_objs := lidars'; point_objs := points' |};
     cout := out |}.

Definition x (t : TurtlebotBurger) : R := xc t.
Definition y (t : TurtlebotBurger) : R := yc t.
Definition get_theta (t : TurtlebotBurger) : R := theta t.
Definition get_dt (t : TurtlebotBurger) : R := dt t.
Definition get_lidar (t : TurtlebotBurger) : positive := lidar t.
Definition get_name (t : TurtlebotBurger) : string := name t.
Definition get_model (t : TurtlebotBurger) : string := model t.

(** [TurtlebotBurger::kinematics(float v, float w)] *)
Definition kinematics (t : TurtlebotBurger) (v w : R) : R * R * R :=
  let v_left := v + w * radius t in
  let v_right := v - w * radius t in
  let dd := (v_left + v_right) * 0.5 in
  let dth := (v_left - v_right) * inv_diameter t in
  (xc t + dd * cos (theta t + dth * 0.5) * dt t,
   yc t + dd * sin (theta t + dth * 0.5) * dt t,
   normalize_angle (theta t + dth * dt t)).

Definition set_pose (t : TurtlebotBurger) (new_pose : R * R * R) : TurtlebotBurger :=
  {| xc := new_pose.1.1;
     yc := new_pose.1.2;
     radius := radius t;
     dt := dt t;
     theta := new_pose.2;
     inv_diameter := inv_diameter t;
     diameter := diameter t;
     name := name t;
     model := model t;
     lidar := lidar t |}.

(** [TurtlebotBurger::move(float v, float w)] *)
Definition move (v w : R) (s : State) : State :=
  let new_pose := kinematics (this s) v w in
  {| this := set_pose (this s) new_pose; heap := heap s; cout := cout s |}.

(** The local variables of [update_lidar_heavy].  [None] is a variable that
    was declared and not yet assigned. *)
Record Locals := {
  loc_laser : Line;
  loc_in_sight : option bool;
  loc_intersection : option Intersection;
  loc_min_distance : option R;
  loc_distance : option R
}.

(** What the loops of [update_lidar_heavy] carry along: the local variables
    and the output stream.  The robot, the lidar and both vectors are only
    read. *)
Record Frame := { locals : Locals; out_stream : list Event }.

Definition print (e : Event) (f : Frame) : Frame :=
  {| locals := locals f; out_stream := out_stream f ++ [e] |}.

Definition set_laser (l : Line) (f : Frame) : Frame :=
  {| locals := {| loc_laser := l;
                  loc_in_sight := loc_in_sight (locals f);
                  loc_intersection := loc_intersection (locals f);
                  loc_min_distance := loc_min_distance (locals f);
                  loc_distance := loc_distance (locals f) |};
     out_stream := out_stream f |}.

Definition set_intersection (i : Intersection) (f : Frame) : Frame :=
  {| locals := {| loc_laser := loc_laser (locals f);
                  loc_in_sight := loc_in_sight (locals f);
                  loc_intersection := Some i;
                  loc_min_distance := loc_min_distance (locals f);
                  loc_distance := loc_distance (locals f) |};
     out_stream := out_stream f |}.

Definition set_in_sight (b : bool) (f : Frame) : Frame :=
  {| locals := {| loc_laser := loc_laser (locals f);
                  loc_in_sight := Some b;
                  loc_intersection := loc_intersection (locals f);
                  loc_min_distance := loc_min_distance (locals f);
                  loc_distance := loc_distance (locals f) |};
     out_stream := out_stream f |}.

Definition set_distance (d : R) (f : Frame) : Frame :=
  {| locals := {| loc_laser := loc_laser (locals f);
                  loc_in_sight := loc_in_sight (locals f);
                  loc_intersection := loc_intersection (locals f);
                  loc_min_distance := loc_min_distance (locals f);
                  loc_distance := Some d |};
     out_stream := out_stream f |}.

(** The body of the loop over the round obstacles (robot.cpp, lines 99 to
    131), at index [o] with [ob = round_obstacles[o]]. *)
Definition obstacle_body (laser_points : R * R * R * R)
    (o : nat) (ob : RoundObstacle) (f : Frame) : Frame :=
  let i := intersects_line ob (loc_laser (locals f)) in
  let f := set_intersection i f in
  let f := print (ObstacleShown o ob) f in
  let f := print (IntersectionShown o i) f in
  if get0 i then
    let f := set_in_sight
               (obstacle_in_sight (get1 i) (get2 i) (get3 i) (get4 i)
                                  (get_xc ob) (get_yc ob)) f in
    if loc_in_sight (locals f) is Some true then
      set_distance
        (distance_between_points laser_points.1.1.1 laser_points.1.1.2 0 0) f
    else f
  else f.

(** The body of the loop over the rays (robot.cpp, lines 93 to 133). *)
Definition ray_body (t : TurtlebotBurger) (ld : Lidar)
    (round_obstacles : list RoundObstacle) (ray : Z) (f : Frame) : Frame :=
  let laser_points := get_laser_points ld (IZR ray) (x t) (y t) (theta t) in
  let f := set_laser (set_points (loc_laser (locals f))
                        laser_points.1.1.1 laser_points.1.1.2
                        laser_points.1.2 laser_points.2) f in
  let f := print (RayHeader ray) f in
  let f := print (LaserShown (loc_laser (locals f))) f in
  let f := for_each_indexed 0 round_obstacles (obstacle_body laser_points) f in
  print Separator f.

(** The whole of [update_lidar_heavy] from the lidar object [ld] that
    [this->lidar] points to: the frame the function ends with. *)
Definition update_lidar_heavy_frame (t : TurtlebotBurger) (ld : Lidar)
    (round_obstacles : list RoundObstacle) (edges : list Line)
    (out : list Event) : Frame :=
  let f := {| locals := {| loc_laser := {| lx1 := 0; ly1 := 0; lx2 := 0; ly2 := 0 |};
                           loc_in_sight := None;
                           loc_intersection := None;
                           loc_min_distance := None;
                           loc_distance := None |};
              out_stream := out |} in
  let f := print (LaserBefore (loc_laser (locals f))) f in
  for_range 45 46 (ray_body t ld round_obstacles) f.

(** [TurtlebotBurger::update_lidar_heavy(round_obstacles, edges)].
    The function returns nothing and its local variables end with it: what
    is left is the output.  [None] is the dereference of a [this->lidar]
    that points to no lidar. *)
Definition update_lidar_heavy (round_obstacles : list RoundObstacle)
    (edges : list Line) (s : State) : option State :=
  match lidar_objs (heap s) !! lidar (this s) with
  | None => None
  | Some ld =>
      let f := update_lidar_heavy_frame (this s) ld round_obstacles edges (cout s) in
      Some {| this := this s; heap := heap s; cout := out_stream f |}
  end.

(** ** Reading a state *)

(** The lidar object of the robot. *)
Definition the_lidar (s : State) : option Lidar :=
  lidar_objs (heap s) !! lidar (this s).

(** The range readings of the robot's lidar. *)
Definition readings (s : State) : option (list R) :=
  get_lasers <$> the_lidar s.

(** The point the robot's lidar holds as its position. *)
Definition lidar_position (s : State) : option Point2d :=
  match the_lidar s with
  | Some ld => point_objs (heap s) !! position ld
  | None => None
  end.

Definition pose (t : TurtlebotBurger) : R * R * R := (xc t, yc t, theta t).

(** The rays and the obstacles an output stream reports on. *)
Definition rays_shown (out : list Event) : list Z :=
  omap (fun e => if e is RayHeader ray then Some ray else None) out.

Definition obstacles_shown (out : list Event) : list RoundObstacle :=
  omap (fun e => if e is ObstacleShown _ ob then Some ob else None) out.

(** A run of [move] commands, each a pair [(v, w)]. *)
Definition moves (cmds : list (R * R)) (s : State) : State :=
  foldl (fun s c => move c.1 c.2 s) s cmds.

(** ** What the specification says *)

(** The in-sight test in the words of the specification:
    [min(xi,xf) <= xm <= max(xi,xf)]. *)
Definition spec_in_between (xi xm xf : R) : Prop :=
  Rmin xi xf <= xm <= Rmax xi xf.

(** The lidar holds the robot's present position. *)
Definition lidar_tracks_robot (s : State) : Prop :=
  lidar_position s = Some {| px := xc (this s); py := yc (this s) |}.

(** ** The rest of the lidar *)

(** What [Lidar::display_lasers] writes: a text, a number, or [std::endl]. *)
Inductive Token :=
| Text (s : string)
| Number (v : R)
| Endl.

(** [Lidar::display_lasers()], appending to the output [out]. *)
Definition display_lasers (l : Lidar) (out : list Token) : list Token :=
  let out := out ++ [Text "Lasers: [ "] in
  let out := for_each_indexed 0 (lasers l)
               (fun (i : nat) (v : R) (out : list Token) => out ++ [Number v; Text " "])
               out in
  out ++ [Text "]"; Endl].

(** The numbers an output of [display_lasers] holds, in order. *)
Definition numbers_shown (out : list Token) : list R :=
  omap (fun k => if k is Number v then Some v else None) out.

(** ** Reading the sense cycle *)

(** The laser [update_lidar_heavy] sets for a ray: from the near point to
    the far point of [get_laser_points]. *)
Definition laser_of_ray (t : TurtlebotBurger) (ld : Lidar) (ray : Z) : Line :=
  let laser_points := get_laser_points ld (IZR ray) (x t) (y t) (theta t) in
  {| lx1 := laser_points.1.1.1; ly1 := laser_points.1.1.2;
     lx2 := laser_points.1.2; ly2 := laser_points.2 |}.

(** The two lines of output per round obstacle, from index [o] on, for the
    laser [l]. *)
Fixpoint obstacle_reports (l : Line) (o : nat) (round_obstacles : list RoundObstacle)
    : list Event :=
  match round_obstacles with
  | [] => []
  | ob :: rest =>
      ObstacleShown o ob :: IntersectionShown o (intersects_line ob l)
        :: obstacle_reports l (Datatypes.S o) rest
  end.

(** The obstacle meets the line of the laser [l] and passes
    [obstacle_in_sight] as the sense cycle calls it. *)
Definition sighted (l : Line) (ob : RoundObstacle) : bool :=
  get0 (intersects_line ob l)
  && obstacle_in_sight (get1 (intersects_line ob l)) (get2 (intersects_line ob l))
                       (get3 (intersects_line ob l)) (get4 (intersects_line ob l))
                       (get_xc ob) (get_yc ob).

(** ** Calls in sequence *)

(** A call of one of the two methods that act on a robot. *)
Inductive Call :=
| CallMove (v w : R)
| CallSense (round_obstacles : list RoundObstacle) (edges : list Line).

Definition call (c : Call) (s : State) : option State :=
  match c with
  | CallMove v w => Some (move v w s)
  | CallSense round_obstacles edges => update_lidar_heavy round_obstacles edges s
  end.

Fixpoint calls (cs : list Call) (s : State) : option State :=
  match cs with
  | [] => Some s
  | c :: cs' =>
      match call c s with
      | Some s' => calls cs' s'
      | None => None
      end
  end.

(** The fields of a robot that are set once, by the constructor. *)
Definition same_setup (t t' : TurtlebotBurger) : Prop :=
  radius t' = radius t /\ dt t' = dt t
  /\ diameter t' = diameter t /\ inv_diameter t' = inv_diameter t
  /\ name t' = name t /\ model t' = model t /\ lidar t' = lidar t.

End Robot.

(** ** An instance of the missing headers *)

Module Reference.

(** Modelled from the spec: [normalize_angle] (utils.h) is missing.  The
    heading is brought into the canonical range (-PI, PI] by a whole number
    of turns. *)
Definition normalize_angle (a : R) : R :=
  a - 2 * PI * IZR (1 - up ((PI - a) / (2 * PI))).

(** Modelled from the spec: [distance_between_points] (utils.h) is missing;
    the Euclidean distance. *)
Definition distance_between_points (x1 y1 x2 y2 : R) : R :=
  sqrt ((x1 - x2) * (x1 - x2) + (y1 - y2) * (y1 - y2)).

(** Modelled from the spec: [RoundObstacle::intersects_line] (obstacles.h)
    is missing.  The line through the two points of [l] meets the circle in
    zero or two points, which coincide when the line is tangent. *)
Definition intersects_line (ob : RoundObstacle) (l : Line) : Intersection :=
  let dx := lx2 l - lx1 l in
  let dy := ly2 l - ly1 l in
  let fx := lx1 l - get_xc ob in
  let fy := ly1 l - get_yc ob in
  let a := dx * dx + dy * dy in
  let b := 2 * (fx * dx + fy * dy) in
  let c := fx * fx + fy * fy - get_radius ob * get_radius ob in
  let disc := b * b - 4 * a * c in
  if Rle_bool a 0 || negb (Rle_bool 0 disc) then
    {| get0 := false; get1 := 0; get2 := 0; get3 := 0; get4 := 0 |}
  else
    let t1 := (- b - sqrt disc) / (2 * a) in
    let t2 := (- b + sqrt disc) / (2 * a) in
    {| get0 := true;
       get1 := lx1 l + t1 * dx; get2 := ly1 l + t1 * dy;
       get3 := lx1 l + t2 * dx; get4 := ly1 l + t2 * dy |}.

(** Modelled from the spec: the constants of robot.h are missing.  One ray
    per degree, ranges as in the end-to-end scenario of the spec. *)
#[export] Instance externals : Externals :=
  Build_Externals normalize_angle distance_between_points intersects_line
                  (PI / 180) 360 0.1 10.

Definition empty_heap : Heap := {| lidar_objs := ∅; point_objs := ∅ |}.

(** The robot of the end-to-end scenario: at (0,0,0), radius 0.5, dt = 1. *)
Definition robot0 : State :=
  TurtlebotBurger_new 0 0 0 0.5 1 "bot" 0 empty_heap [].

(** The round obstacle of the end-to-end scenario. *)
Definition obstacle0 : RoundObstacle :=
  {| get_xc := 5; get_yc := 0; get_radius := 0.1 |}.

(** A wall edge across the ray of index 45. *)
Definition edge0 : Line := {| lx1 := 0; ly1 := 2; lx2 := 2; ly2 := 0 |}.

End Reference.

(** * The arithmetic of the machine

    The model above reads numbers as reals, which is enough for what a
    method writes, for the heap and for the output.  What [kinematics]
    computes depends on the arithmetic itself, and is stated here on IEEE
    754 numbers: a C++ [float] is a binary32 value and a [double] a
    binary64 value, with the operations of [SpecFloat] (round to nearest,
    ties to even).

    Expressions are evaluated as C++ types them, each operation in the
    type of its operands (FLT_EVAL_METHOD 0): two [float]s give a [float]
    operation, a [float] and a [double] give a [double] operation on the
    converted [float], an [int] met by a [float] is converted to [float],
    and a [double] stored in a [float] is rounded.  The members of the
    robot and of the lidar are [float]s.  [cos] and [sin] of a [double]
    are the C library's, of which nothing is fixed here. *)

Module Machine.

Local Open Scope Z_scope.

Definition float := spec_float.
Definition double := spec_float.

Definition fadd : float -> float -> float := SFadd 24 128.
Definition fsub : float -> float -> float := SFsub 24 128.
Definition fmul : float -> float -> float := SFmul 24 128.
Definition fdiv : float -> float -> float := SFdiv 24 128.
Definition dadd : double -> double -> double := SFadd 53 1024.
Definition dsub : double -> double -> double := SFsub 53 1024.
Definition dmul : double -> double -> double := SFmul 53 1024.
Definition ddiv : double -> double -> double := SFdiv 53 1024.

(** [a <= b] and [a < b] on numbers of one type. *)
Definition fleb : spec_float -> spec_float -> bool := SFleb.
Definition fltb : spec_float -> spec_float -> bool := SFltb.

(** The value of [v] in the format given by [prec] and [emax], rounded
    when it does not fit. *)
Definition round_to (prec emax : Z) (v : spec_float) : spec_float :=
  match v with
  | S754_finite s m e => binary_round prec emax s m e
  | _ => v
  end.

(** A [float] used as a [double] (exact), a [double] stored in a [float]
    (rounded). *)
Definition to_double (v : float) : double := round_to 53 1024 v.
Definition to_float (v : double) : float := round_to 24 128 v.

(** An [int] used as a [float]; a [bool] used as a [float]. *)
Definition int_to_float (n : Z) : float := binary_normalize 24 128 n 0 false.
Definition bool_to_float (b : bool) : float := int_to_float (if b then 1 else 0).

(** The [double] literals [0.5], [1.0] and [2.0]. *)
Definition d0_5 : double := Eval cbv in binary_normalize 53 1024 1 (-1) false.
Definition d1_0 : double := Eval cbv in binary_normalize 53 1024 1 0 false.
Definition d2_0 : double := Eval cbv in binary_normalize 53 1024 2 0 false.

(** Neither an infinity nor a NaN. *)
Definition is_finite (v : spec_float) : bool :=
  match v with
  | S754_zero _ | S754_finite _ _ _ => true
  | _ => false
  end.

(** A finite binary32 value that is not the negative zero. *)
Definition plain (v : float) : bool :=
  match v with
  | S754_zero s => negb s
  | S754_finite _ m e => bounded 24 128 m e
  | _ => false
  end.

(** A finite binary32 value. *)
Definition finite32 (v : float) : bool :=
  match v with
  | S754_zero _ => true
  | S754_finite _ m e => bounded 24 128 m e
  | _ => false
  end.

(** ** Geometry *)

Record Point2d := { px : float; py : float }.

Record Line := { lx1 : float; ly1 : float; lx2 : float; ly2 : float }.

Definition set_points (_ : Line) (x1 y1 x2 y2 : float) : Line :=
  {| lx1 := x1; ly1 := y1; lx2 := x2; ly2 := y2 |}.

(** Modelled from the spec: obstacles.h is missing; a round obstacle is a
    circle, with the centre read by [get_xc] and [get_yc]. *)
Record RoundObstacle := { get_xc : float; get_yc : float; get_radius : float }.

Record Intersection :=
  { get0 : bool; get1 : float; get2 : float; get3 : float; get4 : float }.

(** ** What robot.cpp takes from outside *)

(** [cos] and [sin] are the C library's functions on [double].
    [cos_of_float] and [sin_of_float] are [cos] and [sin] called on a
    [float] with the result stored in a [float], whichever overload that
    call resolves to.  [times_TO_RAD] is [angle * TO_RAD] stored in a
    [float].  The rest is as in the model on reals. *)
Class Externals := {
  cos : double -> double;
  sin : double -> double;
  cos_of_float : float -> float;
  sin_of_float : float -> float;
  normalize_angle : float -> float;
  distance_between_points : float -> float -> float -> float -> float;
  intersects_line : RoundObstacle -> Line -> Intersection;
  times_TO_RAD : float -> float;
  N_LASERS : nat;
  MIN_DISTANCE : float;
  MAX_DISTANCE : float
}.

(** ** Objects *)

Record Lidar := {
  frequency : float;
  position : positive;
  lasers : list float;
  min_distance : float;
  max_distance : float
}.

Record TurtlebotBurger := {
  xc : float;
  yc : float;
  radius : float;
  dt : float;
  theta : float;
  inv_diameter : float;
  diameter : float;
  name : string;
  model : string;
  lidar : positive
}.

Record Heap := {
  lidar_objs : gmap positive Lidar;
  point_objs : gmap positive Point2d
}.

Inductive Event :=
| LaserBefore (l : Line)
| RayHeader (ray : Z)
| LaserShown (l : Line)
| ObstacleShown (o : nat) (ob : RoundObstacle)
| IntersectionShown (o : nat) (i : Intersection)
| Separator.

Record State := {
  this : TurtlebotBurger;
  heap : Heap;
  cout : list Event
}.

Section Robot.
Context `{Externals}.

(** ** Lidar *)

(** [Lidar::Lidar(float frequency, Point2d* position)] *)
Definition Lidar_new (frequency0 : float) (position0 : positive) : Lidar :=
  {| frequency := frequency0;
     position := position0;
     lasers := replicate N_LASERS MAX_DISTANCE;
     min_distance := MIN_DISTANCE;
     max_distance := MAX_DISTANCE |}.

Definition get_lasers (l : Lidar) : list float := lasers l.

(** [return (xi <= xm <= xf) || (xf <= xm <= xi);] *)
Definition in_between (xi xm xf : float) : bool :=
  fleb (bool_to_float (fleb xi xm)) xf
  || fleb (bool_to_float (fleb xf xm)) xi.

(** [Lidar::obstacle_in_sight] *)
Definition obstacle_in_sight (x_min y_min x_max y_max x_obs y_obs : float) : bool :=
  in_between x_min x_obs x_max && in_between y_min y_obs y_max.

(** [Lidar::get_laser_points(float angle, float x, float y, float theta)] *)
Definition get_laser_points (l : Lidar) (angle x0 y0 theta0 : float)
    : float * float * float * float :=
  let angle_rad := times_TO_RAD angle in
  let cos_ := cos_of_float (fadd angle_rad theta0) in
  let sin_ := sin_of_float (fadd angle_rad theta0) in
  (fadd x0 (fmul (min_distance l) cos_),
   fadd y0 (fmul (min_distance l) sin_),
   fadd x0 (fmul (max_distance l) cos_),
   fadd y0 (fmul (max_distance l) sin_)).

(** ** TurtlebotBurger *)

(** [TurtlebotBurger::TurtlebotBurger(x, y, theta, radius, dt, name)].
    [1.0 / (2 * this->radius)] is a [float] product, a [double] quotient,
    and is rounded into the [float] member; [this->radius * 2.0] is a
    [double] product, rounded likewise.  [frequency0] stands for what the
    unassigned [float frequency;] holds. *)
Definition TurtlebotBurger_new (x0 y0 theta0 radius0 dt0 : float) (name0 : string)
    (frequency0 : float) (h : Heap) (out : list Event) : State :=
  let p := alloc (point_objs h) in
  let points' := <[p := {| px := x0; py := y0 |}]> (point_objs h) in
  let q := alloc (lidar_objs h) in
  let lidars' := <[q := Lidar_new frequency0 p]> (lidar_objs h) in
  {| this := {| xc := x0; yc := y0; radius := radius0;
                dt := dt0;
                theta := theta0;
                inv_diameter :=
                  to_float (ddiv d1_0 (to_double (fmul (int_to_float 2) radius0)));
                diameter := to_float (dmul (to_double radius0) d2_0);
                name := name0;
                model := "burger";
                lidar := q |};
     heap := {| lidar_objs := lidars'; point_objs := points' |};
     cout := out |}.

(** [TurtlebotBurger::kinematics(float v, float w)].
    [v_left], [v_right] and [dth] are [float] expressions.  [0.5] is a
    [double], so [dd] is a [double] product rounded to [float], and each
    of the first two results is a [double] expression, rounded when it
    enters the tuple of [float]s. *)
Definition kinematics (t : TurtlebotBurger) (v w : float) : float * float * float :=
  let v_left := fadd v (fmul w (radius t)) in
  let v_right := fsub v (fmul w (radius t)) in
  let dd := to_float (dmul (to_double (fadd v_left v_right)) d0_5) in
  let dth := fmul (fsub v_left v_right) (inv_diameter t) in
  (to_float
     (dadd (to_double (xc t))
           (dmul (dmul (to_double dd)
                       (cos (dadd (to_double (theta t)) (dmul (to_double dth) d0_5))))
                 (to_double (dt t)))),
   to_float
     (dadd (to_double (yc t))
           (dmul (dmul (to_double dd)
                       (sin (dadd (to_double (theta t)) (dmul (to_double dth) d0_5))))
                 (to_double (dt t)))),
   normalize_angle (fadd (theta t) (fmul dth (dt t)))).

(** The [dth] of [kinematics]. *)
Definition heading_rate (t : TurtlebotBurger) (v w : float) : float :=
  fmul (fsub (fadd v (fmul w (radius t))) (fsub v (fmul w (radius t))))
       (inv_diameter t).

(** The argument [this->theta + dth * 0.5] of [cos] and [sin] in
    [kinematics]. *)
Definition midpoint_heading (t : TurtlebotBurger) (v w : float) : double :=
  dadd (to_double (theta t)) (dmul (to_double (heading_rate t v w)) d0_5).

Definition set_pose (t : TurtlebotBurger) (new_pose : float * float * float)
    : TurtlebotBurger :=
  {| xc := new_pose.1.1;
     yc := new_pose.1.2;
     radius := radius t;
     dt := dt t;
     theta := new_pose.2;
     inv_diameter := inv_diameter t;
     diameter := diameter t;
     name := name t;
     model := model t;
     lidar := lidar t |}.

(** [TurtlebotBurger::move(float v, float w)] *)
Definition move (v w : float) (s : State) : State :=
  let new_pose := kinematics (this s) v w in
  {| this := set_pose (this s) new_pose; heap := heap s; cout := cout s |}.

(** ** The sense cycle *)

Record Locals := {
  loc_laser : Line;
  loc_in_sight : option bool;
  loc_intersection : option Intersection;
  loc_min_distance : option float;
  loc_distance : option float
}.

Record Frame := { locals : Locals; out_stream : list Event }.

Definition print (e : Event) (f : Frame) : Frame :=
  {| locals := locals f; out_stream := out_stream f ++ [e] |}.

Definition set_laser (l : Line) (f : Frame) : Frame :=
  {| locals := {| loc_laser := l;
                  loc_in_sight := loc_in_sight (locals f);
                  loc_intersection := loc_intersection (locals f);
                  loc_min_distance := loc_min_distance (locals f);
                  loc_distance := loc_distance (locals f) |};
     out_stream := out_stream f |}.

Definition set_intersection (i : Intersection) (f : Frame) : Frame :=
  {| locals := {| loc_laser := loc_laser (locals f);
                  loc_in_sight := loc_in_sight (locals f);
                  loc_intersection := Some i;
                  loc_min_distance := loc_min_distance (locals f);
                  loc_distance := loc_distance (locals f) |};
     out_stream := out_stream f |}.

Definition set_in_sight (b : bool) (f : Frame) : Frame :=
  {| locals := {| loc_laser := loc_laser (locals f);
                  loc_in_sight := Some b;
                  loc_intersection := loc_intersection (locals f);
                  loc_min_distance := loc_min_distance (locals f);
                  loc_distance := loc_distance (locals f) |};
     out_stream := out_stream f |}.

Definition set_distance (d : float) (f : Frame) : Frame :=
  {| locals := {| loc_laser := loc_laser (locals f);
                  loc_in_sight := loc_in_sight (locals f);
                  loc_intersection := loc_intersection (locals f);
                  loc_min_distance := loc_min_distance (locals f);
                  loc_distance := Some d |};
     out_stream := out_stream f |}.

(** The body of the loop over the round obstacles (robot.cpp, lines 99 to
    131). *)
Definition obstacle_body (laser_points : float * float * float * float)
    (o : nat) (ob : RoundObstacle) (f : Frame) : Frame :=
  let i := intersects_line ob (loc_laser (locals f)) in
  let f := set_intersection i f in
  let f := print (ObstacleShown o ob) f in
  let f := print (IntersectionShown o i) f in
  if get0 i then
    let f := set_in_sight
               (obstacle_in_sight (get1 i) (get2 i) (get3 i) (get4 i)
                                  (get_xc ob) (get_yc ob)) f in
    if loc_in_sight (locals f) is Some true then
      set_distance
        (distance_between_points laser_points.1.1.1 laser_points.1.1.2
           (int_to_float 0) (int_to_float 0)) f
    else f
  else f.

(** The body of the loop over the rays (robot.cpp, lines 93 to 133). *)
Definition ray_body (t : TurtlebotBurger) (ld : Lidar)
    (round_obstacles : list RoundObstacle) (ray : Z) (f : Frame) : Frame :=
  let laser_points :=
    get_laser_points ld (int_to_float ray) (xc t) (yc t) (theta t) in
  let f := set_laser (set_points (loc_laser (locals f))
                        laser_points.1.1.1 laser_points.1.1.2
                        laser_points.1.2 laser_points.2) f in
  let f := print (RayHeader ray) f in
  let f := print (LaserShown (loc_laser (locals f))) f in
  let f := for_each_indexed 0%nat round_obstacles (obstacle_body laser_points) f in
  print Separator f.

Definition update_lidar_heavy_frame (t : TurtlebotBurger) (ld : Lidar)
    (round_obstacles : list RoundObstacle) (edges : list Line)
    (out : list Event) : Frame :=
  let f := {| locals := {| loc_laser := {| lx1 := int_to_float 0; ly1 := int_to_float 0;
                                           lx2 := int_to_float 0; ly2 := int_to_float 0 |};
                           loc_in_sight := None;
                           loc_intersection := None;
                           loc_min_distance := None;
                           loc_distance := None |};
              out_stream := out |} in
  let f := print (LaserBefore (loc_laser (locals f))) f in
  for_range 45 46 (ray_body t ld round_obstacles) f.

(** [TurtlebotBurger::update_lidar_heavy(round_obstacles, edges)];
    [None] is the dereference of a [this->lidar] that points to no
    lidar. *)
Definition update_lidar_heavy (round_obstacles : list RoundObstacle)
    (edges : list Line) (s : State) : option State :=
  match lidar_objs (heap s) !! lidar (this s) with
  | None => None
  | Some ld =>
      let f := update_lidar_heavy_frame (this s) ld round_obstacles edges (cout s) in
      Some {| this := this s; heap := heap s; cout := out_stream f |}
  end.

(** ** Reading a state *)

Definition the_lidar (s : State) : option Lidar :=
  lidar_objs (heap s) !! lidar (this s).

Definition readings (s : State) : option (list float) :=
  get_lasers <$> the_lidar s.

Definition pose (t : TurtlebotBurger) : float * float * float :=
  (xc t, yc t, theta t).

(** ** The tick of the world *)

(** Modelled from the spec: world.cpp is missing.  The world drives a tick
    by calling the kinematics engine, then the lidar raycaster. *)
Definition tick (v w : float) (round_obstacles : list RoundObstacle)
    (edges : list Line) (s : State) : option State :=
  update_lidar_heavy round_obstacles edges (move v w s).

Fixpoint ticks (n : nat) (v w : float) (round_obstacles : list RoundObstacle)
    (edges : list Line) (s : State) : option State :=
  match n with
  | O => Some s
  | Datatypes.S n' =>
      match tick v w round_obstacles edges s with
      | Some s' => ticks n' v w round_obstacles edges s'
      | None => None
      end
  end.

Definition moves (cmds : list (float * float)) (s : State) : State :=
  foldl (fun s c => move c.1 c.2 s) s cmds.


(** ** The step in words *)



End Robot.

End Machine.

(** ** An instance of what is outside, for the machine *)

Module MachineReference.

Import Machine.

Local Open Scope Z_scope.

(** The [float]s nearest to pi and to 2 pi, and the [float] 7. *)
Definition f_pi : float := S754_finite false 13176795 (-22).
Definition f_two_pi : float := S754_finite false 13176795 (-21).

(** Modelled from the spec: [normalize_angle] (utils.h) is missing.  The
    heading is brought into (-pi, pi] by steps of 2 pi; [fuel] bounds the
    number of steps. *)
Fixpoint wrap (fuel : nat) (a : float) : float :=
  match fuel with
  | O => a
  | Datatypes.S fuel' =>
      if fltb f_pi a then wrap fuel' (fsub a f_two_pi)
      else if fleb a (SFopp f_pi) then wrap fuel' (fadd a f_two_pi)
      else a
  end.

Definition normalize_angle (a : float) : float := wrap 64 a.

(** A stand-in for the C library: NaN for a NaN or an infinity, the exact
    values at zero, and elsewhere the Taylor polynomial of degree 10 (of
    degree 9 for [sin]), which is close to the function near zero only.
    No statement below depends on its values at other arguments. *)
Definition cos (a : double) : double :=
  match a with
  | S754_nan | S754_infinity _ => S754_nan
  | S754_zero _ => d1_0
  | S754_finite _ _ _ =>
      let a2 := dmul a a in
      let q (n : Z) (r : double) : double :=
        dsub d1_0 (dmul (ddiv a2 (binary_normalize 53 1024 n 0 false)) r) in
      q 2 (q 12 (q 30 (q 56 (q 90 d1_0))))
  end.

Definition sin (a : double) : double :=
  match a with
  | S754_nan | S754_infinity _ => S754_nan
  | S754_zero _ => a
  | S754_finite _ _ _ =>
      let a2 := dmul a a in
      let q (n : Z) (r : double) : double :=
        dsub d1_0 (dmul (ddiv a2 (binary_normalize 53 1024 n 0 false)) r) in
      dmul a (q 6 (q 20 (q 42 (q 72 d1_0))))
  end.

(** Modelled from the spec: [distance_between_points] (utils.h) is
    missing; the Euclidean distance, in [float] operations. *)
Definition distance_between_points (x1 y1 x2 y2 : float) : float :=
  SFsqrt 24 128
    (fadd (fmul (fsub x1 x2) (fsub x1 x2)) (fmul (fsub y1 y2) (fsub y1 y2))).

(** Modelled from the spec: [RoundObstacle::intersects_line] (obstacles.h)
    is missing; the line through the two points of [l] against the circle,
    in [float] operations. *)
Definition intersects_line (ob : RoundObstacle) (l : Line) : Intersection :=
  let dx := fsub (lx2 l) (lx1 l) in
  let dy := fsub (ly2 l) (ly1 l) in
  let fx := fsub (lx1 l) (get_xc ob) in
  let fy := fsub (ly1 l) (get_yc ob) in
  let a := fadd (fmul dx dx) (fmul dy dy) in
  let b := fmul (int_to_float 2) (fadd (fmul fx dx) (fmul fy dy)) in
  let c := fsub (fadd (fmul fx fx) (fmul fy fy))
                (fmul (get_radius ob) (get_radius ob)) in
  let disc := fsub (fmul b b) (fmul (fmul (int_to_float 4) a) c) in
  if fleb a (int_to_float 0) || negb (fleb (int_to_float 0) disc) then
    {| get0 := false; get1 := int_to_float 0; get2 := int_to_float 0;
       get3 := int_to_float 0; get4 := int_to_float 0 |}
  else
    let t1 := fdiv (fsub (SFopp b) (SFsqrt 24 128 disc)) (fmul (int_to_float 2) a) in
    let t2 := fdiv (fadd (SFopp b) (SFsqrt 24 128 disc)) (fmul (int_to_float 2) a) in
    {| get0 := true;
       get1 := fadd (lx1 l) (fmul t1 dx); get2 := fadd (ly1 l) (fmul t1 dy);
       get3 := fadd (lx1 l) (fmul t2 dx); get4 := fadd (ly1 l) (fmul t2 dy) |}.

(** Modelled from the spec: the constants of robot.h are missing.  One ray
    per degree, [TO_RAD] as the [float] nearest to pi / 180, ranges 0.1
    and 10. *)
#[export] Instance externals : Externals :=
  Build_Externals cos sin
    (fun a => to_float (cos (to_double a)))
    (fun a => to_float (sin (to_double a)))
    normalize_angle distance_between_points intersects_line
    (fun angle => fmul angle (fdiv f_pi (int_to_float 180)))
    360
    (fdiv (int_to_float 1) (int_to_float 10))
    (int_to_float 10).

Definition empty_heap : Heap := {| lidar_objs := ∅; point_objs := ∅ |}.

(** The [float]s 0.5, 0.105 and 1e38. *)
Definition f0_5 : float := Eval vm_compute in fdiv (int_to_float 1) (int_to_float 2).
Definition f1e38 : float := Eval vm_compute in int_to_float (10 ^ 38).

(** The robot of the end-to-end scenario: at (0,0,0), radius 0.5, dt = 1. *)
Definition robot0 : State :=
  TurtlebotBurger_new (int_to_float 0) (int_to_float 0) (int_to_float 0)
    f0_5 (int_to_float 1) "bot" (int_to_float 0) empty_heap [].

(** The same robot constructed with the heading 7, which lies outside
    (-pi, pi]. *)
Definition robot_heading_7 : State :=
  TurtlebotBurger_new (int_to_float 0) (int_to_float 0) (int_to_float 7)
    f0_5 (int_to_float 1) "bot" (int_to_float 0) empty_heap [].


(** The same robot with radius 4. *)
Definition robot_radius_4 : State :=
  TurtlebotBurger_new (int_to_float 0) (int_to_float 0) (int_to_float 0)
    (int_to_float 4) (int_to_float 1) "bot" (int_to_float 0) empty_heap [].

(** The same robot with radius 2^-130, for which 1.0 / (2 * radius) is
    2^129 and does not fit a [float]. *)
Definition robot_radius_tiny : State :=
  TurtlebotBurger_new (int_to_float 0) (int_to_float 0) (int_to_float 0)
    (S754_finite false 524288 (-149)) (int_to_float 1) "bot" (int_to_float 0)
    empty_heap [].

Definition obstacle0 : RoundObstacle :=
  {| get_xc := int_to_float 5; get_yc := int_to_float 0;
     get_radius := fdiv (int_to_float 1) (int_to_float 10) |}.

End MachineReference.

(** * Properties *)

(** ** Comparisons *)

Lemma Rle_bool_true (a b : R) : Rle_bool a b = true <-> a <= b.
Proof. unfold Rle_bool. destruct (Rle_dec a b); split; intros; try easy. Qed.

Lemma Rle_bool_false (a b : R) : Rle_bool a b = false <-> b < a.
Proof.
  unfold Rle_bool. destruct (Rle_dec a b); split; intros; try easy; lra.
Qed.

(** What the chained comparisons of [in_between] test. *)
Lemma in_between_true (xi xm xf : R) :
  in_between xi xm xf = true <->
  (xi <= xm /\ 1 <= xf) \/ (xm < xi /\ 0 <= xf) \/
  (xf <= xm /\ 1 <= xi) \/ (xm < xf /\ 0 <= xi).
Proof.
  unfold in_between, bool_to_float, Rle_bool.
  repeat destruct (Rle_dec _ _); simpl; split; intros; try easy; lra.
Qed.

Section RobotFacts.
Context `{Externals}.

Lemma new_the_lidar x0 y0 theta0 radius0 dt0 name0 frequency0 h out :
  the_lidar (TurtlebotBurger_new x0 y0 theta0 radius0 dt0 name0 frequency0 h out)
  = Some (Lidar_new frequency0 (alloc (point_objs h))).
Proof. unfold the_lidar. simpl. apply lookup_insert_eq. Qed.

(** A new lidar reads [MAX_DISTANCE] on each of its [N_LASERS] rays. *)
Lemma new_readings x0 y0 theta0 radius0 dt0 name0 frequency0 h out :
  readings (TurtlebotBurger_new x0 y0 theta0 radius0 dt0 name0 frequency0 h out)
  = Some (replicate N_LASERS MAX_DISTANCE).
Proof. unfold readings. now rewrite new_the_lidar. Qed.

Lemma move_heap v w s : heap (move v w s) = heap s.
Proof. reflexivity. Qed.

Lemma move_the_lidar v w s : the_lidar (move v w s) = the_lidar s.
Proof. reflexivity. Qed.

Lemma moves_lidar_position cmds s :
  lidar_position (moves cmds s) = lidar_position s.
Proof.
  revert s. induction cmds as [|c cmds IH]; intros s; simpl.
  - reflexivity.
  - now rewrite IH.
Qed.

(** ** The sense cycle *)

Lemma for_range_45_46 {S : Type} (body : Z -> S -> S) (s : S) :
  for_range 45 46 body s = body 45%Z s.
Proof. reflexivity. Qed.

Lemma obstacle_body_out lp o ob f :
  out_stream (obstacle_body lp o ob f)
  = out_stream f ++ [ObstacleShown o ob;
                     IntersectionShown o (intersects_line ob (loc_laser (locals f)))].
Proof.
  unfold obstacle_body. cbv zeta.
  destruct (get0 _); simpl.
  - destruct (obstacle_in_sight _ _ _ _ _ _); simpl; now rewrite <- app_assoc.
  - now rewrite <- app_assoc.
Qed.

(** What the loop body leaves in [distance] when the obstacle is met and
    in sight: the distance between the near point of the laser and the
    origin.  The value stays in the local variable. *)
Lemma obstacle_body_distance lp o ob f :
  get0 (intersects_line ob (loc_laser (locals f))) = true ->
  obstacle_in_sight (get1 (intersects_line ob (loc_laser (locals f))))
                    (get2 (intersects_line ob (loc_laser (locals f))))
                    (get3 (intersects_line ob (loc_laser (locals f))))
                    (get4 (intersects_line ob (loc_laser (locals f))))
                    (get_xc ob) (get_yc ob) = true ->
  loc_distance (locals (obstacle_body lp o ob f))
  = Some (distance_between_points lp.1.1.1 lp.1.1.2 0 0).
Proof.
  intros Hhit Hsight. unfold obstacle_body. cbv zeta.
  rewrite Hhit. simpl. now rewrite Hsight.
Qed.

Lemma print_out e f : out_stream (print e f) = out_stream f ++ [e].
Proof. reflexivity. Qed.

Lemma rays_shown_app out1 out2 :
  rays_shown (out1 ++ out2) = rays_shown out1 ++ rays_shown out2.
Proof. apply omap_app. Qed.

Lemma obstacles_shown_app out1 out2 :
  obstacles_shown (out1 ++ out2) = obstacles_shown out1 ++ obstacles_shown out2.
Proof. apply omap_app. Qed.

Lemma obstacle_loop_rays lp ros : forall o f,
  rays_shown (out_stream (for_each_indexed o ros (obstacle_body lp) f))
  = rays_shown (out_stream f).
Proof.
  induction ros as [|ob ros IH]; intros o f; simpl.
  - reflexivity.
  - rewrite IH, obstacle_body_out. unfold rays_shown.
    rewrite omap_app. simpl. apply app_nil_r.
Qed.

Lemma obstacle_loop_obstacles lp ros : forall o f,
  obstacles_shown (out_stream (for_each_indexed o ros (obstacle_body lp) f))
  = obstacles_shown (out_stream f) ++ ros.
Proof.
  induction ros as [|ob ros IH]; intros o f; simpl.
  - now rewrite app_nil_r.
  - rewrite IH, obstacle_body_out. unfold obstacles_shown.
    rewrite omap_app. simpl. now rewrite <- app_assoc.
Qed.

(** The sense cycle reads [edges] nowhere. *)
Lemma update_lidar_heavy_frame_edges t ld ros edges edges' out :
  update_lidar_heavy_frame t ld ros edges out
  = update_lidar_heavy_frame t ld ros edges' out.
Proof. reflexivity. Qed.

Lemma ray_body_rays t ld ros ray f :
  rays_shown (out_stream (ray_body t ld ros ray f))
  = rays_shown (out_stream f) ++ [ray].
Proof.
  unfold ray_body. cbv zeta.
  rewrite print_out, rays_shown_app, obstacle_loop_rays.
  rewrite !print_out, !rays_shown_app. simpl.
  now rewrite !app_nil_r.
Qed.

Lemma ray_body_obstacles t ld ros ray f :
  obstacles_shown (out_stream (ray_body t ld ros ray f))
  = obstacles_shown (out_stream f) ++ ros.
Proof.
  unfold ray_body. cbv zeta.
  rewrite print_out, obstacles_shown_app, obstacle_loop_obstacles.
  rewrite !print_out, !obstacles_shown_app. simpl.
  now rewrite !app_nil_r.
Qed.

Lemma update_lidar_heavy_frame_rays t ld ros edges out :
  rays_shown (out_stream (update_lidar_heavy_frame t ld ros edges out))
  = rays_shown out ++ [45%Z].
Proof.
  unfold update_lidar_heavy_frame. cbv zeta.
  rewrite for_range_45_46, ray_body_rays, print_out, rays_shown_app. simpl.
  now rewrite app_nil_r.
Qed.

Lemma update_lidar_heavy_frame_obstacles t ld ros edges out :
  obstacles_shown (out_stream (update_lidar_heavy_frame t ld ros edges out))
  = obstacles_shown out ++ ros.
Proof.
  unfold update_lidar_heavy_frame. cbv zeta.
  rewrite for_range_45_46, ray_body_obstacles, print_out, obstacles_shown_app. simpl.
  now rewrite app_nil_r.
Qed.

(** With a lidar behind [this->lidar] the sense cycle returns; the robot
    and the heap come out as they went in. *)
Lemma update_lidar_heavy_returns ros edges s ld :
  the_lidar s = Some ld ->
  update_lidar_heavy ros edges s
  = Some {| this := this s; heap := heap s;
            cout := out_stream (update_lidar_heavy_frame (this s) ld ros edges (cout s)) |}.
Proof. unfold the_lidar, update_lidar_heavy. now intros ->. Qed.

Lemma update_lidar_heavy_the_lidar ros edges s ld :
  the_lidar s = Some ld ->
  exists s', update_lidar_heavy ros edges s = Some s'
             /\ this s' = this s /\ heap s' = heap s /\ the_lidar s' = Some ld.
Proof.
  intros Hld. eexists. split; [exact (update_lidar_heavy_returns ros edges s ld Hld)|].
  simpl. repeat split. exact Hld.
Qed.

(** C1: whatever round obstacles and edges the sense cycle is given, it
    returns with the range readings it found: none of them becomes the
    distance to an intersection, and two obstacle sets give the same
    readings. *)
Theorem update_lidar_heavy_readings_ignore_obstacles ros edges ros' edges' s ld :
  the_lidar s = Some ld ->
  exists s1 s2,
    update_lidar_heavy ros edges s = Some s1
    /\ update_lidar_heavy ros' edges' s = Some s2
    /\ readings s1 = readings s
    /\ readings s2 = readings s1.
Proof.
  intros Hld.
  destruct (update_lidar_heavy_the_lidar ros edges s ld Hld) as (s1 & E1 & _ & _ & L1).
  destruct (update_lidar_heavy_the_lidar ros' edges' s ld Hld) as (s2 & E2 & _ & _ & L2).
  exists s1, s2. unfold readings. rewrite L1, L2, Hld. repeat split; assumption.
Qed.

(** C2: a sense cycle works on the ray of index 45 and on no other ray:
    the rays the cycle reports on are exactly [45], for any number of
    lasers. *)
Theorem update_lidar_heavy_only_ray_45 ros edges s ld :
  the_lidar s = Some ld ->
  exists s', update_lidar_heavy ros edges s = Some s'
             /\ rays_shown (cout s') = rays_shown (cout s) ++ [45%Z].
Proof.
  intros Hld. eexists. split; [exact (update_lidar_heavy_returns ros edges s ld Hld)|].
  simpl. exact (update_lidar_heavy_frame_rays (this s) ld ros edges (cout s)).
Qed.

(** C5: a sense cycle tests the round obstacles, each once and in order,
    and nothing else: the edges (walls) it is given change neither the
    output nor the resulting state. *)
Theorem update_lidar_heavy_round_obstacles_only ros edges s ld :
  the_lidar s = Some ld ->
  exists s', update_lidar_heavy ros edges s = Some s'
             /\ obstacles_shown (cout s') = obstacles_shown (cout s) ++ ros
             /\ forall edges', update_lidar_heavy ros edges' s = Some s'.
Proof.
  intros Hld. eexists. split; [exact (update_lidar_heavy_returns ros edges s ld Hld)|].
  simpl. split.
  - exact (update_lidar_heavy_frame_obstacles (this s) ld ros edges (cout s)).
  - intros edges'. now rewrite (update_lidar_heavy_returns ros edges' s ld Hld).
Qed.

(** C7: after a sense cycle every reading slot holds what it held before
    the cycle: the lidar object is the one the cycle started with. *)
Theorem update_lidar_heavy_keeps_stale_readings ros edges s ld :
  the_lidar s = Some ld ->
  exists s', update_lidar_heavy ros edges s = Some s'
             /\ the_lidar s' = Some ld
             /\ forall ray, (readings s' ≫= (.!! ray)) = get_lasers ld !! ray.
Proof.
  intros Hld.
  destruct (update_lidar_heavy_the_lidar ros edges s ld Hld) as (s' & E & _ & _ & L).
  exists s'. repeat split; try assumption.
  intros ray. unfold readings. now rewrite L.
Qed.

(** ** What [move] writes *)

(** C10: [move] writes [xc], [yc] and [theta] and nothing else: radius,
    dt, diameter, inv_diameter, name, model and the lidar pointer keep
    their values, and so do the lidar object, the whole heap and the
    output. *)
Theorem move_changes_pose_only v w s :
  radius (this (move v w s)) = radius (this s)
  /\ dt (this (move v w s)) = dt (this s)
  /\ diameter (this (move v w s)) = diameter (this s)
  /\ inv_diameter (this (move v w s)) = inv_diameter (this s)
  /\ name (this (move v w s)) = name (this s)
  /\ model (this (move v w s)) = model (this s)
  /\ lidar (this (move v w s)) = lidar (this s)
  /\ the_lidar (move v w s) = the_lidar s
  /\ heap (move v w s) = heap s
  /\ cout (move v w s) = cout s
  /\ pose (this (move v w s)) = kinematics (this s) v w.
Proof.
  repeat split.
Qed.

(** ** The lidar's position *)

Lemma new_lidar_position x0 y0 theta0 radius0 dt0 name0 frequency0 h out :
  lidar_position (TurtlebotBurger_new x0 y0 theta0 radius0 dt0 name0 frequency0 h out)
  = Some {| px := x0; py := y0 |}.
Proof.
  unfold lidar_position. rewrite new_the_lidar. simpl.
  apply lookup_insert_eq.
Qed.

(** C8 (amended): the position a lidar holds is the point (x, y) its robot
    was constructed at, and it stays that point through any run of [move]
    commands. *)
Theorem lidar_position_is_construction_point
    x0 y0 theta0 radius0 dt0 name0 frequency0 h out cmds :
  lidar_position
    (moves cmds (TurtlebotBurger_new x0 y0 theta0 radius0 dt0 name0 frequency0 h out))
  = Some {| px := x0; py := y0 |}.
Proof. rewrite moves_lidar_position. apply new_lidar_position. Qed.

End RobotFacts.

(** ** The in-sight test *)

(** C4: [in_between] is not the range test min(xi,xf) <= xm <= max(xi,xf):
    it accepts 5 between 0 and 1 and rejects -1.5 between -2 and -1, and
    [obstacle_in_sight] accepts the point (5,5) for the box from (0,0) to
    (1,1). *)
Theorem in_between_is_not_the_range_test :
  in_between 0 5 1 = true /\ ~ spec_in_between 0 5 1
  /\ in_between (-2) (-1.5) (-1) = false /\ spec_in_between (-2) (-1.5) (-1)
  /\ obstacle_in_sight 0 0 1 1 5 5 = true.
Proof.
  assert (A : in_between 0 5 1 = true) by (apply in_between_true; lra).
  assert (B : in_between (-2) (-1.5) (-1) = false).
  { destruct (in_between (-2) (-1.5) (-1)) eqn:E; [|reflexivity].
    apply in_between_true in E. lra. }
  repeat split.
  - exact A.
  - unfold spec_in_between, Rmin, Rmax. destruct (Rle_dec 0 1); lra.
  - exact B.
  - unfold Rmin. destruct (Rle_dec (-2) (-1)); lra.
  - unfold Rmax. destruct (Rle_dec (-2) (-1)); lra.
  - unfold obstacle_in_sight. now rewrite A.
Qed.

(** ** The reference instance *)

Lemma reference_normalize_angle_canonical (a : R) :
  - PI < a <= PI -> Reference.normalize_angle a = a.
Proof.
  intros [Hlo Hhi]. unfold Reference.normalize_angle.
  pose proof PI_RGT_0 as Hpi.
  assert (Hup : up ((PI - a) / (2 * PI)) = 1%Z).
  { symmetry. apply tech_up.
    - apply Rmult_lt_reg_r with (2 * PI); [lra|].
      unfold Rdiv. rewrite Rmult_assoc, Rinv_l by lra. lra.
    - apply Rmult_le_reg_r with (2 * PI); [lra|].
      rewrite Rmult_plus_distr_r.
      unfold Rdiv. rewrite Rmult_assoc, Rinv_l by lra. lra. }
  rewrite Hup. change (1 - 1)%Z with 0%Z. ring.
Qed.

Lemma robot0_the_lidar :
  the_lidar Reference.robot0
  = Some (Lidar_new (H := Reference.externals) 0 (alloc (point_objs Reference.empty_heap))).
Proof. apply new_the_lidar. Qed.

(** The kinematics half of the end-to-end scenario: from (0,0,0) with
    radius 0.5 and dt = 1, the command v = 1, w = 0 leads to (1,0,0). *)
Lemma robot0_move_forward :
  pose (this (move (H := Reference.externals) 1 0 Reference.robot0)) = (1, 0, 0).
Proof.
  unfold pose, move, kinematics. simpl.
  replace (0 + (1 + 0 * 0.5 - (1 - 0 * 0.5)) * (1.0 / (2 * 0.5)) * 0.5)
    with 0 by lra.
  replace (0 + (1 + 0 * 0.5 - (1 - 0 * 0.5)) * (1.0 / (2 * 0.5)) * 1)
    with 0 by lra.
  rewrite cos_0, sin_0.
  rewrite reference_normalize_angle_canonical by (pose proof PI_RGT_0; lra).
  repeat f_equal; lra.
Qed.

(** C8, as stated, fails: after [move 1 0] the robot of the scenario is at
    x = 1 while its lidar still holds the point (0, 0). *)
Lemma lidar_position_stale_after_move :
  ~ lidar_tracks_robot (move (H := Reference.externals) 1 0 Reference.robot0).
Proof.
  unfold lidar_tracks_robot. intros Htracks.
  assert (Hpos : lidar_position (move (H := Reference.externals) 1 0 Reference.robot0)
                 = Some {| px := 0; py := 0 |})
    by (exact (new_lidar_position (H := Reference.externals)
                 0 0 0 0.5 1 "bot" 0 Reference.empty_heap [])).
  rewrite Hpos in Htracks.
  assert (Hx : xc (this (move (H := Reference.externals) 1 0 Reference.robot0)) = 1)
    by (exact (f_equal (fun p : R * R * R => p.1.1) robot0_move_forward)).
  assert (Hbad : 0 = xc (this (move (H := Reference.externals) 1 0 Reference.robot0)))
    by (exact (f_equal (fun o => match o with Some p => px p | None => 0 end) Htracks)).
  rewrite Hx in Hbad. lra.
Qed.

Lemma update_lidar_heavy_readings_ignore_obstacles_witness :
  exists s1 s2,
    update_lidar_heavy (H := Reference.externals) [Reference.obstacle0] [] Reference.robot0 = Some s1
    /\ update_lidar_heavy (H := Reference.externals) [] [] Reference.robot0 = Some s2
    /\ readings s1 = readings Reference.robot0
    /\ readings s2 = readings s1.
Proof.
  exact (update_lidar_heavy_readings_ignore_obstacles (H := Reference.externals)
           [Reference.obstacle0] [] [] [] Reference.robot0 _ robot0_the_lidar).
Defined.

Lemma update_lidar_heavy_only_ray_45_witness :
  exists s', update_lidar_heavy (H := Reference.externals) [Reference.obstacle0] [] Reference.robot0 = Some s'
             /\ rays_shown (cout s') = rays_shown (cout Reference.robot0) ++ [45%Z].
Proof.
  exact (update_lidar_heavy_only_ray_45 (H := Reference.externals)
           [Reference.obstacle0] [] Reference.robot0 _ robot0_the_lidar).
Defined.

Lemma update_lidar_heavy_round_obstacles_only_witness :
  exists s', update_lidar_heavy (H := Reference.externals) [Reference.obstacle0] [Reference.edge0] Reference.robot0 = Some s'
             /\ obstacles_shown (cout s') = obstacles_shown (cout Reference.robot0) ++ [Reference.obstacle0]
             /\ forall edges', update_lidar_heavy (H := Reference.externals) [Reference.obstacle0] edges' Reference.robot0 = Some s'.
Proof.
  exact (update_lidar_heavy_round_obstacles_only (H := Reference.externals)
           [Reference.obstacle0] [Reference.edge0] Reference.robot0 _ robot0_the_lidar).
Defined.

Lemma update_lidar_heavy_keeps_stale_readings_witness :
  exists s', update_lidar_heavy (H := Reference.externals) [Reference.obstacle0] [] Reference.robot0 = Some s'
             /\ the_lidar s' = Some (Lidar_new (H := Reference.externals) 0 (alloc (point_objs Reference.empty_heap)))
             /\ forall ray, (readings s' ≫= (.!! ray))
                            = replicate 360 10 !! ray.
Proof.
  exact (update_lidar_heavy_keeps_stale_readings (H := Reference.externals)
           [Reference.obstacle0] [] Reference.robot0 _ robot0_the_lidar).
Defined.

(** * Further properties of the code *)

(** ** The in-sight test, by the range of the bounds *)

(** X1: [obstacle_in_sight] does not tell its two corner points apart:
    swapping (x_min, y_min) with (x_max, y_max) gives the same answer. *)
Theorem obstacle_in_sight_corners_swap (x_min y_min x_max y_max x_obs y_obs : R) :
  obstacle_in_sight x_min y_min x_max y_max x_obs y_obs
  = obstacle_in_sight x_max y_max x_min y_min x_obs y_obs.
Proof.
  unfold obstacle_in_sight, in_between.
  now rewrite (orb_comm (Rle_bool (bool_to_float (Rle_bool x_min x_obs)) x_max)),
              (orb_comm (Rle_bool (bool_to_float (Rle_bool y_min y_obs)) y_max)).
Qed.

(** X2: when all four bounds are at least 1, [obstacle_in_sight] accepts
    every point, wherever it lies. *)
Theorem obstacle_in_sight_large_bounds (x_min y_min x_max y_max x_obs y_obs : R) :
  1 <= x_min -> 1 <= y_min -> 1 <= x_max -> 1 <= y_max ->
  obstacle_in_sight x_min y_min x_max y_max x_obs y_obs = true.
Proof.
  intros Hx1 Hy1 Hx2 Hy2. unfold obstacle_in_sight.
  apply andb_true_iff. split; apply in_between_true.
  - destruct (Rle_dec x_min x_obs); [left | right; left]; lra.
  - destruct (Rle_dec y_min y_obs); [left | right; left]; lra.
Qed.

(** X3: when both bounds are negative, [in_between] rejects every value,
    also the ones that lie between the bounds. *)
Theorem in_between_negative_bounds (xi xm xf : R) :
  xi < 0 -> xf < 0 -> in_between xi xm xf = false.
Proof.
  intros Hi Hf.
  destruct (in_between xi xm xf) eqn:E; [|reflexivity].
  apply in_between_true in E. lra.
Qed.

(** X4: when both bounds lie in [0, 1), [in_between] accepts exactly the
    values below the larger bound: there is no lower limit. *)
Theorem in_between_unit_bounds (xi xm xf : R) :
  0 <= xi < 1 -> 0 <= xf < 1 ->
  (in_between xi xm xf = true <-> xm < Rmax xi xf).
Proof.
  intros Hi Hf. rewrite in_between_true.
  unfold Rmax. destruct (Rle_dec xi xf); split; intros; lra.
Qed.

Section MoreRobotFacts.
Context `{Externals}.

(** ** What [display_lasers] prints *)

Lemma numbers_shown_app out1 out2 :
  numbers_shown (out1 ++ out2) = numbers_shown out1 ++ numbers_shown out2.
Proof. apply omap_app. Qed.

Lemma display_loop_numbers (v : list R) : forall o out,
  numbers_shown
    (for_each_indexed o v
       (fun (i : nat) (r : R) (out : list Token) => out ++ [Number r; Text " "]) out)
  = numbers_shown out ++ v.
Proof.
  induction v as [|r v IH]; intros o out; simpl.
  - now rewrite app_nil_r.
  - rewrite IH, numbers_shown_app. simpl. now rewrite <- app_assoc.
Qed.

(** X12: [display_lasers] prints every reading of the lidar once, in the
    order of the rays, after what the output held before. *)
Theorem display_lasers_numbers l out :
  numbers_shown (display_lasers l out) = numbers_shown out ++ lasers l.
Proof.
  unfold display_lasers. cbv zeta.
  rewrite numbers_shown_app, display_loop_numbers, numbers_shown_app. simpl.
  now rewrite !app_nil_r.
Qed.

(** ** The output and the local variables of a sense cycle *)

Lemma obstacle_body_laser lp o ob f :
  loc_laser (locals (obstacle_body lp o ob f)) = loc_laser (locals f).
Proof.
  unfold obstacle_body. cbv zeta.
  destruct (get0 _); simpl; [|reflexivity].
  now destruct (obstacle_in_sight _ _ _ _ _ _).
Qed.

Lemma obstacle_loop_out lp ros : forall o f,
  out_stream (for_each_indexed o ros (obstacle_body lp) f)
  = out_stream f ++ obstacle_reports (loc_laser (locals f)) o ros.
Proof.
  induction ros as [|ob ros IH]; intros o f; simpl.
  - now rewrite app_nil_r.
  - rewrite IH, obstacle_body_out, obstacle_body_laser.
    now rewrite <- app_assoc.
Qed.

Lemma obstacle_body_distance_local lp o ob f :
  loc_distance (locals (obstacle_body lp o ob f))
  = if sighted (loc_laser (locals f)) ob
    then Some (distance_between_points lp.1.1.1 lp.1.1.2 0 0)
    else loc_distance (locals f).
Proof.
  unfold obstacle_body, sighted. cbv zeta.
  destruct (get0 _); simpl; [|reflexivity].
  now destruct (obstacle_in_sight _ _ _ _ _ _).
Qed.

Lemma obstacle_loop_distance lp ros : forall o f,
  loc_distance (locals (for_each_indexed o ros (obstacle_body lp) f))
  = if existsb (sighted (loc_laser (locals f))) ros
    then Some (distance_between_points lp.1.1.1 lp.1.1.2 0 0)
    else loc_distance (locals f).
Proof.
  induction ros as [|ob ros IH]; intros o f; simpl.
  - reflexivity.
  - rewrite IH, obstacle_body_laser, obstacle_body_distance_local.
    destruct (sighted (loc_laser (locals f)) ob); simpl.
    + now destruct (existsb _ ros).
    + reflexivity.
Qed.

(** X13: a sense cycle on a robot with its lidar returns, and appends to
    the output: the laser before (0,0,0,0), the ray 45, the laser of ray
    45 at the robot's present pose, for each round obstacle in order the
    obstacle and its intersection with that one laser, and a separator:
    4 + 2 n entries for n round obstacles. *)
Theorem update_lidar_heavy_output ros edges s ld :
  the_lidar s = Some ld ->
  exists s', update_lidar_heavy ros edges s = Some s'
    /\ cout s'
       = cout s
         ++ [LaserBefore {| lx1 := 0; ly1 := 0; lx2 := 0; ly2 := 0 |};
             RayHeader 45;
             LaserShown (laser_of_ray (this s) ld 45)]
         ++ obstacle_reports (laser_of_ray (this s) ld 45) 0 ros
         ++ [Separator]
    /\ length (cout s') = (length (cout s) + 4 + 2 * length ros)%nat.
Proof.
  intros Hld. eexists.
  split; [exact (update_lidar_heavy_returns ros edges s ld Hld)|].
  assert (Hout : out_stream (update_lidar_heavy_frame (this s) ld ros edges (cout s))
       = cout s
         ++ [LaserBefore {| lx1 := 0; ly1 := 0; lx2 := 0; ly2 := 0 |};
             RayHeader 45;
             LaserShown (laser_of_ray (this s) ld 45)]
         ++ obstacle_reports (laser_of_ray (this s) ld 45) 0 ros
         ++ [Separator]).
  { unfold update_lidar_heavy_frame. cbv zeta. rewrite for_range_45_46.
    unfold ray_body. cbv zeta.
    rewrite print_out, obstacle_loop_out. simpl.
    rewrite <- !app_assoc. reflexivity. }
  split; [exact Hout|].
  change (length (out_stream (update_lidar_heavy_frame (this s) ld ros edges (cout s)))
          = (length (cout s) + 4 + 2 * length ros)%nat).
  rewrite Hout. rewrite !length_app. simpl.
  assert (Hlen : forall l o, length (obstacle_reports l o ros) = (2 * length ros)%nat).
  { clear. induction ros as [|ob ros IH]; intros l o; simpl; [reflexivity|].
    rewrite IH. lia. }
  rewrite Hlen. lia.
Qed.

(** X14: the local variable [distance] at the end of a sense cycle holds a
    value exactly when some round obstacle meets the laser of ray 45 and
    passes [obstacle_in_sight]; the value is then the distance between the
    near point of that laser and the origin (0, 0), whichever obstacle it
    was. *)
Theorem update_lidar_heavy_distance_local t ld ros edges out :
  loc_distance (locals (update_lidar_heavy_frame t ld ros edges out))
  = if existsb (sighted (laser_of_ray t ld 45)) ros
    then Some (distance_between_points
                 (lx1 (laser_of_ray t ld 45)) (ly1 (laser_of_ray t ld 45)) 0 0)
    else None.
Proof.
  unfold update_lidar_heavy_frame. cbv zeta. rewrite for_range_45_46.
  unfold ray_body. cbv zeta. simpl.
  rewrite obstacle_loop_distance. reflexivity.
Qed.

(** ** Sequences of calls *)

Lemma same_setup_refl t : same_setup t t.
Proof. now repeat split. Qed.

Lemma same_setup_trans t1 t2 t3 :
  same_setup t1 t2 -> same_setup t2 t3 -> same_setup t1 t3.
Proof.
  unfold same_setup.
  intros (A1 & A2 & A3 & A4 & A5 & A6 & A7) (B1 & B2 & B3 & B4 & B5 & B6 & B7).
  repeat split; congruence.
Qed.

Lemma call_keeps c s ld :
  the_lidar s = Some ld ->
  exists s', call c s = Some s'
             /\ heap s' = heap s /\ same_setup (this s) (this s')
             /\ the_lidar s' = Some ld.
Proof.
  intros Hld. destruct c as [v w | ros edges]; simpl.
  - exists (move v w s). repeat split. exact Hld.
  - destruct (update_lidar_heavy_the_lidar ros edges s ld Hld) as (s' & E & T & Hp & L).
    exists s'. rewrite T. repeat split; assumption.
Qed.

Lemma calls_keep cs : forall s ld,
  the_lidar s = Some ld ->
  exists s', calls cs s = Some s'
             /\ heap s' = heap s /\ same_setup (this s) (this s')
             /\ the_lidar s' = Some ld.
Proof.
  induction cs as [|c cs IH]; intros s ld Hld; simpl.
  - exists s. repeat split. exact Hld.
  - destruct (call_keeps c s ld Hld) as (s1 & E1 & Hp1 & S1 & L1).
    rewrite E1.
    destruct (IH s1 ld L1) as (s' & E & Hp & S' & L').
    exists s'. split; [exact E|]. split; [congruence|].
    split; [now apply same_setup_trans with (this s1)|exact L'].
Qed.

(** X15: on a constructed robot every sequence of [move] and
    [update_lidar_heavy] calls runs to its end (the lidar pointer is never
    found dangling), leaves the heap of lidars and points as the
    constructor left it, and keeps radius, dt, diameter, inv_diameter,
    name, model and the lidar pointer. *)
Theorem calls_run_and_keep_setup x0 y0 theta0 radius0 dt0 name0 frequency0 h out cs :
  exists s',
    calls cs (TurtlebotBurger_new x0 y0 theta0 radius0 dt0 name0 frequency0 h out) = Some s'
    /\ heap s' = heap (TurtlebotBurger_new x0 y0 theta0 radius0 dt0 name0 frequency0 h out)
    /\ same_setup
         (this (TurtlebotBurger_new x0 y0 theta0 radius0 dt0 name0 frequency0 h out))
         (this s')
    /\ model (this s') = "burger"%string.
Proof.
  destruct (calls_keep cs _ _
              (new_the_lidar x0 y0 theta0 radius0 dt0 name0 frequency0 h out))
    as (s' & E & Hp & S' & _).
  exists s'. split; [exact E|]. split; [exact Hp|]. split; [exact S'|].
  destruct S' as (_ & _ & _ & _ & _ & Hm & _). now rewrite Hm.
Qed.

(** X16: after any sequence of [move] and [update_lidar_heavy] calls on a
    constructed robot, the lidar reads [MAX_DISTANCE] on each of its
    [N_LASERS] rays and holds the construction point as its position. *)
Theorem calls_keep_lidar x0 y0 theta0 radius0 dt0 name0 frequency0 h out cs :
  exists s',
    calls cs (TurtlebotBurger_new x0 y0 theta0 radius0 dt0 name0 frequency0 h out) = Some s'
    /\ readings s' = Some (replicate N_LASERS MAX_DISTANCE)
    /\ (length <$> readings s') = Some N_LASERS
    /\ lidar_position s' = Some {| px := x0; py := y0 |}.
Proof.
  destruct (calls_keep cs _ _
              (new_the_lidar x0 y0 theta0 radius0 dt0 name0 frequency0 h out))
    as (s' & E & Hp & _ & L).
  exists s'. split; [exact E|].
  assert (Hr : readings s' = Some (replicate N_LASERS MAX_DISTANCE))
    by (unfold readings; now rewrite L).
  split; [exact Hr|]. split.
  - rewrite Hr. simpl. now rewrite length_replicate.
  - unfold lidar_position. rewrite L, Hp. simpl. apply lookup_insert_eq.
Qed.

(** ** Two robots *)

Lemma alloc_fresh {A : Type} (m : gmap positive A) : m !! alloc m = None.
Proof. apply not_elem_of_dom, is_fresh. Qed.

(** X18: constructing a robot on the heap of an existing robot gives the
    new robot a lidar and a position point of its own, and leaves the
    lidar object and the position point of the existing robot as they
    are. *)
Theorem new_keeps_other_robot s ld p x0 y0 theta0 radius0 dt0 name0 frequency0 :
  the_lidar s = Some ld -> lidar_position s = Some p ->
  lidar (this (TurtlebotBurger_new x0 y0 theta0 radius0 dt0 name0 frequency0
                 (heap s) (cout s)))
  <> lidar (this s)
  /\ alloc (point_objs (heap s)) <> position ld
  /\ lidar_objs (heap (TurtlebotBurger_new x0 y0 theta0 radius0 dt0 name0 frequency0
                         (heap s) (cout s))) !! lidar (this s) = Some ld
  /\ point_objs (heap (TurtlebotBurger_new x0 y0 theta0 radius0 dt0 name0 frequency0
                         (heap s) (cout s))) !! position ld = Some p
  /\ the_lidar (TurtlebotBurger_new x0 y0 theta0 radius0 dt0 name0 frequency0
                  (heap s) (cout s))
     = Some (Lidar_new frequency0 (alloc (point_objs (heap s)))).
Proof.
  intros Hld Hpos.
  unfold lidar_position in Hpos. rewrite Hld in Hpos.
  unfold the_lidar in Hld.
  assert (Hq : alloc (lidar_objs (heap s)) <> lidar (this s)).
  { intros Heq. rewrite <- Heq, alloc_fresh in Hld. discriminate. }
  assert (Hp : alloc (point_objs (heap s)) <> position ld).
  { intros Heq. rewrite <- Heq, alloc_fresh in Hpos. discriminate. }
  split; [exact Hq|]. split; [exact Hp|]. simpl.
  split; [now rewrite lookup_insert_ne|].
  split; [now rewrite lookup_insert_ne|].
  apply new_the_lidar.
Qed.

End MoreRobotFacts.

(** ** Instances of the further properties *)

Lemma obstacle_in_sight_large_bounds_witness :
  obstacle_in_sight 1 1 2 2 5 5 = true.
Proof. apply (obstacle_in_sight_large_bounds 1 1 2 2 5 5); lra. Defined.

Lemma in_between_negative_bounds_witness :
  in_between (-2) (-1.5) (-1) = false.
Proof. apply (in_between_negative_bounds (-2) (-1.5) (-1)); lra. Defined.

Lemma in_between_unit_bounds_witness :
  in_between 0.2 (-3) 0.5 = true <-> -3 < Rmax 0.2 0.5.
Proof. apply (in_between_unit_bounds 0.2 (-3) 0.5); lra. Defined.

Lemma update_lidar_heavy_output_witness :
  exists s',
    update_lidar_heavy (H := Reference.externals)
      [Reference.obstacle0] [Reference.edge0] Reference.robot0 = Some s'
    /\ cout s'
       = cout Reference.robot0
         ++ [LaserBefore {| lx1 := 0; ly1 := 0; lx2 := 0; ly2 := 0 |};
             RayHeader 45;
             LaserShown (laser_of_ray (H := Reference.externals)
                           (this Reference.robot0)
                           (Lidar_new (H := Reference.externals) 0
                              (alloc (point_objs Reference.empty_heap))) 45)]
         ++ obstacle_reports (H := Reference.externals)
              (laser_of_ray (H := Reference.externals)
                 (this Reference.robot0)
                 (Lidar_new (H := Reference.externals) 0
                    (alloc (point_objs Reference.empty_heap))) 45)
              0 [Reference.obstacle0]
         ++ [Separator]
    /\ length (cout s') = (length (cout Reference.robot0) + 4 + 2 * 1)%nat.
Proof.
  exact (update_lidar_heavy_output (H := Reference.externals)
           [Reference.obstacle0] [Reference.edge0] Reference.robot0 _ robot0_the_lidar).
Defined.

Lemma robot0_lidar_position :
  lidar_position Reference.robot0 = Some {| px := 0; py := 0 |}.
Proof. apply new_lidar_position. Qed.

Lemma new_keeps_other_robot_witness :
  lidar (this (TurtlebotBurger_new (H := Reference.externals) 3 4 0 0.5 1 "second" 0
                 (heap Reference.robot0) (cout Reference.robot0)))
  <> lidar (this Reference.robot0)
  /\ alloc (point_objs (heap Reference.robot0))
     <> position (Lidar_new (H := Reference.externals) 0
                    (alloc (point_objs Reference.empty_heap)))
  /\ lidar_objs (heap (TurtlebotBurger_new (H := Reference.externals) 3 4 0 0.5 1 "second" 0
                         (heap Reference.robot0) (cout Reference.robot0)))
       !! lidar (this Reference.robot0)
     = Some (Lidar_new (H := Reference.externals) 0
               (alloc (point_objs Reference.empty_heap)))
  /\ point_objs (heap (TurtlebotBurger_new (H := Reference.externals) 3 4 0 0.5 1 "second" 0
                         (heap Reference.robot0) (cout Reference.robot0)))
       !! position (Lidar_new (H := Reference.externals) 0
                      (alloc (point_objs Reference.empty_heap)))
     = Some {| px := 0; py := 0 |}
  /\ the_lidar (TurtlebotBurger_new (H := Reference.externals) 3 4 0 0.5 1 "second" 0
                  (heap Reference.robot0) (cout Reference.robot0))
     = Some (Lidar_new (H := Reference.externals) 0
               (alloc (point_objs (heap Reference.robot0)))).
Proof.
  exact (new_keeps_other_robot (H := Reference.externals) Reference.robot0 _ _
           3 4 0 0.5 1 "second" 0 robot0_the_lidar robot0_lidar_position).
Defined.

(** * Properties of the arithmetic *)

Module MachineFacts.

Import Machine.

Local Open Scope Z_scope.

(** ** A binary32 number as a binary64 number, and back *)

Lemma iter_shr_xO (k : positive) : forall m : positive,
  SpecFloat.iter_pos shr_1 k (Build_shr_record (Zpos (Pos.iter xO m k)) false false)
  = Build_shr_record (Zpos m) false false.
Proof.
  induction k as [k IH | k IH |]; intros m; simpl.
  - rewrite IH, IH. reflexivity.
  - rewrite IH, IH. reflexivity.
  - reflexivity.
Qed.

Lemma digits_iter_xO (k : positive) : forall m : positive,
  Zpos (digits2_pos (Pos.iter xO m k)) = Zpos (digits2_pos m) + Zpos k.
Proof.
  induction k as [k IH | k IH |]; intros m; simpl.
  - rewrite Pos2Z.inj_succ, IH, IH. lia.
  - rewrite IH, IH. lia.
  - lia.
Qed.

Lemma bounded32 m e :
  bounded 24 128 m e = true ->
  Z.max (Zpos (digits2_pos m) + e - 24) (-149) = e /\ e <= 104.
Proof.
  unfold bounded, canonical_mantissa, fexp, emin. intros Hb.
  apply andb_true_iff in Hb. destruct Hb as [Hc He].
  apply Z.eqb_eq in Hc. apply Z.leb_le in He.
  split; [exact Hc | exact He].
Qed.

Lemma to_double_finite s m e :
  bounded 24 128 m e = true ->
  to_double (S754_finite s m e)
  = S754_finite s (Pos.iter xO m (Z.to_pos (53 - Zpos (digits2_pos m))))
                (Zpos (digits2_pos m) + e - 53).
Proof.
  intros Hb. destruct (bounded32 m e Hb) as [Hc He].
  set (d := Zpos (digits2_pos m)) in *.
  assert (Hd : 0 < d) by (unfold d; lia).
  unfold to_double, round_to, binary_round.
  assert (Hf : fexp 53 1024 (d + e) = d + e - 53) by (unfold fexp, emin; lia).
  fold d. rewrite Hf.
  unfold shl_align.
  destruct (d + e - 53 - e) as [|p|p] eqn:Hp; try lia.
  assert (Hk : Z.to_pos (53 - d) = p) by lia. rewrite Hk.
  unfold binary_round_aux, shr_fexp. simpl Zdigits2.
  rewrite digits_iter_xO. fold d.
  assert (Hf2 : fexp 53 1024 (d + Zpos p + (d + e - 53)) - (d + e - 53) = 0)
    by (unfold fexp, emin; lia).
  rewrite Hf2. simpl.
  rewrite digits_iter_xO. fold d. rewrite Hf2. simpl.
  assert (Hle : (d + e - 53 <=? 1024 - 53) = true) by (apply Z.leb_le; lia).
  rewrite Hle. reflexivity.
Qed.

Lemma to_float_to_double s m e :
  bounded 24 128 m e = true ->
  to_float (to_double (S754_finite s m e)) = S754_finite s m e.
Proof.
  intros Hb. rewrite to_double_finite by exact Hb.
  destruct (bounded32 m e Hb) as [Hc He].
  set (d := Zpos (digits2_pos m)) in *.
  assert (Hd : 0 < d) by (unfold d; lia).
  set (k := Z.to_pos (53 - d)).
  assert (Hk : Zpos k = 53 - d) by (unfold k; lia).
  unfold to_float, round_to, binary_round.
  rewrite digits_iter_xO. fold d. rewrite Hk.
  assert (Hf : fexp 24 128 (d + (53 - d) + (d + e - 53)) = e)
    by (unfold fexp, emin; lia).
  rewrite Hf. unfold shl_align.
  destruct (e - (d + e - 53)) as [|p|p] eqn:Hp; try lia.
  unfold binary_round_aux, shr_fexp. simpl Zdigits2.
  rewrite digits_iter_xO. fold d. rewrite Hk, Hf.
  rewrite Hp. unfold shr.
  assert (Hpk : p = k) by lia. subst p.
  simpl shr_record_of_loc. rewrite iter_shr_xO. simpl.
  fold d.
  assert (Hf3 : fexp 24 128 (d + (d + e - 53 + Zpos k)) - (d + e - 53 + Zpos k) = 0)
    by (unfold fexp, emin; lia).
  rewrite Hf3. simpl.
  assert (Hle : (d + e - 53 + Zpos k <=? 128 - 24) = true) by (apply Z.leb_le; lia).
  rewrite Hle. f_equal. lia.
Qed.

Lemma to_float_to_double_finite32 v :
  finite32 v = true -> to_float (to_double v) = v.
Proof.
  destruct v as [s | s | | s m e]; simpl; intros Hv; try discriminate.
  - reflexivity.
  - now apply to_float_to_double.
Qed.

Lemma to_double_is_finite v :
  finite32 v = true -> is_finite (to_double v) = true.
Proof.
  destruct v as [s | s | | s m e]; simpl; intros Hv; try discriminate.
  - reflexivity.
  - change (is_finite (to_double (S754_finite s m e)) = true).
    now rewrite to_double_finite.
Qed.

Lemma plain_finite32 v : plain v = true -> finite32 v = true.
Proof. destruct v as [s | s | | s m e]; simpl; intros Hv; try discriminate; easy. Qed.

(** Zero times a finite number is a zero. *)
Lemma fmul_zero_l s v :
  is_finite v = true -> exists s', fmul (S754_zero s) v = S754_zero s'.
Proof. destruct v; simpl; intros Hv; try discriminate; eauto. Qed.

Lemma dmul_zero_l s v :
  is_finite v = true -> exists s', dmul (S754_zero s) v = S754_zero s'.
Proof. destruct v; simpl; intros Hv; try discriminate; eauto. Qed.

(** A plain number plus a zero is the number. *)
Lemma fadd_zero_r v s : plain v = true -> fadd v (S754_zero s) = v.
Proof.
  destruct v as [sv | sv | | sv m e]; simpl; intros Hv; try discriminate.
  - destruct sv; [discriminate|]. now destruct s.
  - reflexivity.
Qed.

Lemma dadd_to_double_zero_r v s :
  plain v = true -> dadd (to_double v) (S754_zero s) = to_double v.
Proof.
  destruct v as [sv | sv | | sv m e]; simpl; intros Hv; try discriminate.
  - destruct sv; [discriminate|]. now destruct s.
  - change (dadd (to_double (S754_finite sv m e)) (S754_zero s)
            = to_double (S754_finite sv m e)).
    now rewrite to_double_finite.
Qed.

(** A finite number and its opposite add up to the positive zero. *)
Lemma fadd_opp s m e :
  fadd (S754_finite s m e) (S754_finite (negb s) m e) = S754_zero false.
Proof.
  unfold fadd, SFadd. rewrite Z.min_id. unfold shl_align.
  rewrite Z.sub_diag. simpl fst.
  replace (cond_Zopp s (Zpos m) + cond_Zopp (negb s) (Zpos m)) with 0
    by (destruct s; simpl; lia).
  reflexivity.
Qed.

(** What is added to the position when [dd] is a zero: nothing. *)
Lemma position_kept p s c t :
  plain p = true -> is_finite c = true -> finite32 t = true ->
  to_float (dadd (to_double p) (dmul (dmul (S754_zero s) c) (to_double t))) = p.
Proof.
  intros Hp Hc Ht.
  destruct (dmul_zero_l s c Hc) as [s1 ->].
  destruct (dmul_zero_l s1 (to_double t) (to_double_is_finite t Ht)) as [s2 ->].
  rewrite dadd_to_double_zero_r by exact Hp.
  apply to_float_to_double_finite32, plain_finite32, Hp.
Qed.

(** ** Kinematics on the machine *)

Section Kinematics.
Context `{Externals}.

(** With v = 0 and a product w * radius that did not overflow, the two
    wheel terms cancel: [dd] is the positive zero. *)
Lemma wheel_terms_cancel t w :
  is_finite (fmul w (radius t)) = true ->
  to_float
    (dmul (to_double (fadd (fadd (int_to_float 0) (fmul w (radius t)))
                           (fsub (int_to_float 0) (fmul w (radius t)))))
          d0_5)
  = S754_zero false.
Proof.
  intros Ha.
  destruct (fmul w (radius t)) as [s | s | | s m e]; try discriminate.
  - now destruct s.
  - change (fadd (int_to_float 0) (S754_finite s m e)) with (S754_finite s m e).
    change (fsub (int_to_float 0) (S754_finite s m e)) with (S754_finite (negb s) m e).
    rewrite fadd_opp. reflexivity.
Qed.

Lemma kinematics_position t w :
  plain (xc t) = true -> plain (yc t) = true -> finite32 (dt t) = true ->
  is_finite (fmul w (radius t)) = true ->
  is_finite (cos (midpoint_heading t (int_to_float 0) w)) = true ->
  is_finite (sin (midpoint_heading t (int_to_float 0) w)) = true ->
  (kinematics t (int_to_float 0) w).1.1 = xc t
  /\ (kinematics t (int_to_float 0) w).1.2 = yc t.
Proof.
  intros Hx Hy Ht Ha Hc Hs.
  unfold kinematics. cbv zeta. cbn [fst snd].
  rewrite (wheel_terms_cancel t w Ha).
  change (to_double (S754_zero false)) with (S754_zero false).
  split.
  - now apply position_kept.
  - now apply position_kept.
Qed.

(** With no command the heading change is a zero. *)
Lemma heading_rate_zero t :
  is_finite (radius t) = true -> is_finite (inv_diameter t) = true ->
  exists s, heading_rate t (int_to_float 0) (int_to_float 0) = S754_zero s.
Proof.
  intros Hr Hi. unfold heading_rate.
  destruct (fmul_zero_l false (radius t) Hr) as [s1 E1].
  change (int_to_float 0) with (S754_zero false). rewrite E1.
  replace (fsub (fadd (S754_zero false) (S754_zero s1))
                (fsub (S754_zero false) (S754_zero s1)))
    with (S754_zero false) by (now destruct s1).
  apply fmul_zero_l, Hi.
Qed.

Lemma midpoint_heading_zero t :
  plain (theta t) = true ->
  is_finite (radius t) = true -> is_finite (inv_diameter t) = true ->
  midpoint_heading t (int_to_float 0) (int_to_float 0) = to_double (theta t).
Proof.
  intros Hth Hr Hi. unfold midpoint_heading.
  destruct (heading_rate_zero t Hr Hi) as [s ->].
  change (dmul (to_double (S754_zero s)) d0_5) with (S754_zero (xorb s false)).
  now apply dadd_to_double_zero_r.
Qed.

Lemma kinematics_zero t :
  plain (xc t) = true -> plain (yc t) = true -> plain (theta t) = true ->
  is_finite (radius t) = true -> is_finite (inv_diameter t) = true ->
  finite32 (dt t) = true ->
  is_finite (cos (to_double (theta t))) = true ->
  is_finite (sin (to_double (theta t))) = true ->
  kinematics t (int_to_float 0) (int_to_float 0)
  = (xc t, yc t, normalize_angle (theta t)).
Proof.
  intros Hx Hy Hth Hr Hi Ht Hc Hs.
  assert (Ha : is_finite (fmul (int_to_float 0) (radius t)) = true).
  { destruct (fmul_zero_l false (radius t) Hr) as [s1 E1].
    change (int_to_float 0) with (S754_zero false). now rewrite E1. }
  destruct (kinematics_position t (int_to_float 0) Hx Hy Ht Ha) as [Px Py].
  - now rewrite midpoint_heading_zero.
  - now rewrite midpoint_heading_zero.
  - assert (Hh : (kinematics t (int_to_float 0) (int_to_float 0)).2
                 = normalize_angle (theta t)).
    { change ((kinematics t (int_to_float 0) (int_to_float 0)).2)
        with (normalize_angle
                (fadd (theta t)
                      (fmul (heading_rate t (int_to_float 0) (int_to_float 0)) (dt t)))).
      destruct (heading_rate_zero t Hr Hi) as [s ->].
      destruct (fmul_zero_l s (dt t)) as [s' ->].
      { destruct (dt t); try discriminate; reflexivity. }
      now rewrite fadd_zero_r. }
    destruct (kinematics t (int_to_float 0) (int_to_float 0)) as [[a b] c].
    simpl in *. now subst.
Qed.

(** ** The sense cycle and the ticks *)

Lemma update_lidar_heavy_keeps ros edges s ld :
  the_lidar s = Some ld ->
  exists s', update_lidar_heavy ros edges s = Some s'
             /\ this s' = this s /\ heap s' = heap s.
Proof.
  unfold the_lidar, update_lidar_heavy. intros ->.
  eexists. split; [reflexivity|]. now split.
Qed.

Lemma set_pose_same t : set_pose t (pose t) = t.
Proof. now destruct t. Qed.




Lemma ticks_zero_keep t0 hp ld ros edges :
  kinematics t0 (int_to_float 0) (int_to_float 0) = pose t0 ->
  lidar_objs hp !! lidar t0 = Some ld ->
  forall n s, this s = t0 -> heap s = hp ->
    exists s', ticks n (int_to_float 0) (int_to_float 0) ros edges s = Some s'
               /\ this s' = t0 /\ heap s' = hp.
Proof.
  intros Hk Hld. induction n as [|n IH]; intros s Ht Hh.
  - exists s. now repeat split.
  - cbn [ticks]. unfold tick.
    assert (Hm : this (move (int_to_float 0) (int_to_float 0) s) = t0).
    { unfold move. cbn [this]. rewrite Ht, Hk. apply set_pose_same. }
    assert (Hl : the_lidar (move (int_to_float 0) (int_to_float 0) s) = Some ld).
    { unfold the_lidar. rewrite Hm. cbn [move heap]. now rewrite Hh. }
    destruct (update_lidar_heavy_keeps ros edges _ ld Hl) as (s1 & E & T & Hp).
    rewrite E. apply IH.
    + now rewrite T.
    + rewrite Hp. exact Hh.
Qed.

(** C6 (amended): for a robot whose x, y and heading are finite and not the
    negative zero, whose heading normalize_angle leaves as it is, whose
    radius, inv_diameter and dt are finite, and for which cos and sin of
    the heading are finite, a kinematics step with v = 0 and w = 0 returns
    the pose as it is, and any number of ticks with that command leave the
    robot and all lidar readings as they are. *)
Theorem machine_zero_command_ticks s ld :
  plain (xc (this s)) = true -> plain (yc (this s)) = true ->
  plain (theta (this s)) = true ->
  is_finite (radius (this s)) = true -> is_finite (inv_diameter (this s)) = true ->
  finite32 (dt (this s)) = true ->
  normalize_angle (theta (this s)) = theta (this s) ->
  is_finite (cos (to_double (theta (this s)))) = true ->
  is_finite (sin (to_double (theta (this s)))) = true ->
  the_lidar s = Some ld ->
  kinematics (this s) (int_to_float 0) (int_to_float 0) = pose (this s)
  /\ forall n ros edges,
       exists s', ticks n (int_to_float 0) (int_to_float 0) ros edges s = Some s'
                  /\ pose (this s') = pose (this s)
                  /\ readings s' = readings s.
Proof.
  intros Hx Hy Hth Hr Hi Ht Hn Hc Hs Hld.
  assert (Hk : kinematics (this s) (int_to_float 0) (int_to_float 0) = pose (this s)).
  { rewrite kinematics_zero by assumption. unfold pose. now rewrite Hn. }
  split; [exact Hk|].
  intros n ros edges.
  destruct (ticks_zero_keep (this s) (heap s) ld ros edges Hk Hld n s eq_refl eq_refl)
    as (s' & E & T & Hp).
  exists s'. split; [exact E|].
  unfold readings, the_lidar. now rewrite T, Hp.
Qed.

(** X19: when w * radius overflows, a kinematics step with v = 0 returns a
    NaN for x and for y, whatever x, y, the heading, dt and the values of
    cos and sin are. *)
Theorem machine_rotation_overflow_nan t w s :
  fmul w (radius t) = S754_infinity s ->
  (kinematics t (int_to_float 0) w).1.1 = S754_nan
  /\ (kinematics t (int_to_float 0) w).1.2 = S754_nan.
Proof.
  intros Ha. unfold kinematics. cbv zeta. cbn [fst snd]. rewrite Ha.
  replace (fadd (fadd (int_to_float 0) (S754_infinity s))
                (fsub (int_to_float 0) (S754_infinity s)))
    with S754_nan by (now destruct s).
  change (to_float (dmul (to_double S754_nan) d0_5)) with S754_nan.
  change (to_double S754_nan) with S754_nan.
  change (dmul S754_nan) with (fun _ : double => S754_nan). cbv beta.
  split.
  - now destruct (to_double (xc t)).
  - now destruct (to_double (yc t)).
Qed.


(** X21: when the stored inv_diameter is an infinity (the radius was so
    small that 1.0 / (2 * radius) overflowed), the zero command calls
    normalize_angle on a NaN: the heading change 0 * inf is a NaN. *)
Theorem machine_zero_command_reciprocal_overflow t s :
  is_finite (radius t) = true -> inv_diameter t = S754_infinity s ->
  heading_rate t (int_to_float 0) (int_to_float 0) = S754_nan
  /\ (kinematics t (int_to_float 0) (int_to_float 0)).2 = normalize_angle S754_nan.
Proof.
  intros Hr Hi.
  assert (Hh : heading_rate t (int_to_float 0) (int_to_float 0) = S754_nan).
  { unfold heading_rate. rewrite Hi.
    destruct (fmul_zero_l false (radius t) Hr) as [s1 E1].
    change (int_to_float 0) with (S754_zero false). rewrite E1.
    now destruct s1. }
  split; [exact Hh|].
  change ((kinematics t (int_to_float 0) (int_to_float 0)).2)
    with (normalize_angle
            (fadd (theta t)
                  (fmul (heading_rate t (int_to_float 0) (int_to_float 0)) (dt t)))).
  rewrite Hh. f_equal. now destruct (theta t).
Qed.

End Kinematics.

(** ** At the robots of the reference instance *)


(** C6, as stated, fails: a robot constructed with the heading 7 does not
    keep its pose under the zero command. *)
Lemma machine_zero_command_changes_heading_7 :
  kinematics (H := MachineReference.externals)
    (this MachineReference.robot_heading_7) (int_to_float 0) (int_to_float 0)
  <> pose (this MachineReference.robot_heading_7).
Proof.
  intros Heq. apply (f_equal snd) in Heq. vm_compute in Heq. discriminate.
Qed.



Lemma machine_zero_command_ticks_witness :
  kinematics (H := MachineReference.externals)
    (this MachineReference.robot0) (int_to_float 0) (int_to_float 0)
  = pose (this MachineReference.robot0)
  /\ forall n ros edges,
       exists s', ticks (H := MachineReference.externals)
                    n (int_to_float 0) (int_to_float 0) ros edges MachineReference.robot0
                  = Some s'
                  /\ pose (this s') = pose (this MachineReference.robot0)
                  /\ readings s' = readings MachineReference.robot0.
Proof.
  apply (machine_zero_command_ticks (H := MachineReference.externals)
           MachineReference.robot0
           (Lidar_new (H := MachineReference.externals) (int_to_float 0)
              (alloc (point_objs MachineReference.empty_heap)))); reflexivity.
Defined.

Lemma machine_rotation_overflow_nan_witness :
  (kinematics (H := MachineReference.externals)
     (this MachineReference.robot_radius_4) (int_to_float 0) MachineReference.f1e38).1.1
  = S754_nan
  /\ (kinematics (H := MachineReference.externals)
        (this MachineReference.robot_radius_4) (int_to_float 0) MachineReference.f1e38).1.2
     = S754_nan.
Proof.
  apply (machine_rotation_overflow_nan (H := MachineReference.externals)
           (this MachineReference.robot_radius_4) MachineReference.f1e38 false).
  reflexivity.
Defined.


Lemma machine_zero_command_reciprocal_overflow_witness :
  heading_rate (this MachineReference.robot_radius_tiny) (int_to_float 0) (int_to_float 0)
  = S754_nan
  /\ (kinematics (H := MachineReference.externals)
        (this MachineReference.robot_radius_tiny) (int_to_float 0) (int_to_float 0)).2
     = normalize_angle (Externals := MachineReference.externals) S754_nan.
Proof.
  apply (machine_zero_command_reciprocal_overflow (H := MachineReference.externals)
           (this MachineReference.robot_radius_tiny) false); reflexivity.
Defined.

End MachineFacts.
